(** * Text analysis of the Persian writing assistant

    A shallow embedding of [persian_writer/analysis.py] and the
    properties its specification states about it.

    Python strings are sequences of Unicode code points, so a [str] is a
    list of code points.  The functions of the Python runtime the module
    calls ([str.split], [str.strip], [re.split], [re.findall],
    [re.finditer], [in], true division, [round]) are written out as Rocq
    functions; the module's own two functions, [analyze_text] and
    [format_metrics], are translated statement by statement on top of
    them. *)

From Stdlib Require Import ZArith NArith QArith Qabs Qpower Lia Bool.
From Stdlib Require Import Strings.String Strings.Ascii Numbers.DecimalString.
From Stdlib Require Numbers.DecimalZ.
From Stdlib Require Import Floats.SpecFloat Sorting.Sorted.
From stdpp Require Import base list.

Local Open Scope bool_scope.

(** ** Strings *)

Module Str.

Definition codepoint := N.
Definition str := list codepoint.

(** An ASCII literal as a Python string. *)
Definition lit (s : string) : str :=
  List.map N_of_ascii (list_ascii_of_string s).

Fixpoint eqb (a b : str) : bool :=
  match a, b with
  | [], [] => true
  | x :: a', y :: b' => (x =? y)%N && eqb a' b'
  | _, _ => false
  end.

(** Truth value of a string: non-empty. *)
Definition truthy (s : str) : bool :=
  match s with [] => false | _ :: _ => true end.

(** [str.isspace] on one code point: the white space table of
    CPython, which [str.strip], [str.split] and the [\s] class of [re]
    on [str] patterns all share. *)
Definition isspace (c : codepoint) : bool :=
  ((9 <=? c) && (c <=? 13) || (28 <=? c) && (c <=? 32)
   || (c =? 133) || (c =? 160) || (c =? 5760)
   || (8192 <=? c) && (c <=? 8202)
   || (c =? 8232) || (c =? 8233) || (c =? 8239) || (c =? 8287)
   || (c =? 12288))%N.

Fixpoint lstrip (s : str) : str :=
  match s with
  | [] => []
  | c :: rest => if isspace c then lstrip rest else s
  end.

Definition rstrip (s : str) : str := rev (lstrip (rev s)).

(** [s.strip()] *)
Definition strip (s : str) : str := rstrip (lstrip s).

Fixpoint startswith (p s : str) : bool :=
  match p, s with
  | [], _ => true
  | _ :: _, [] => false
  | a :: p', b :: s' => (a =? b)%N && startswith p' s'
  end.

(** [sub in s] *)
Fixpoint contains (sub s : str) : bool :=
  startswith sub s ||
  match s with
  | [] => false
  | _ :: rest => contains sub rest
  end.

(** [s.split(sep)] for a non-empty [sep]: the pieces between the
    occurrences of [sep], found from the left and not overlapping.
    [skip] counts the code points of a separator still to be passed,
    [cur] is the piece being read, in reverse. *)
Fixpoint split_aux (sep : str) (skip : nat) (cur : str) (s : str) : list str :=
  match s with
  | [] => [rev cur]
  | c :: rest =>
      match skip with
      | S k => split_aux sep k cur rest
      | O =>
          if startswith sep s
          then rev cur :: split_aux sep (length sep - 1) [] rest
          else split_aux sep 0 (c :: cur) rest
      end
  end.

Definition split (sep s : str) : list str := split_aux sep 0 [] s.

(** The maximal runs of at least [n] code points of the class [cls],
    from the left: what [re.findall] and [re.finditer] return for a
    pattern [C{n,}] ([C+] is [C{1,}]) over a one-character class [C].
    The greedy match at a position takes the whole run that starts
    there, and a run that is too short matches at none of its
    positions. *)
Definition emit (n : nat) (cur : str) : list str :=
  if (n <=? length cur)%nat then [rev cur] else [].

Fixpoint runs_aux (cls : codepoint -> bool) (n : nat) (cur : str) (s : str)
  : list str :=
  match s with
  | [] => emit n cur
  | c :: rest =>
      if cls c then runs_aux cls n (c :: cur) rest
      else emit n cur ++ runs_aux cls n [] rest
  end.

Definition runs (cls : codepoint -> bool) (n : nat) (s : str) : list str :=
  runs_aux cls n [] s.

(** [s.split()]: the maximal runs of code points that are not white
    space. *)
Definition split_ws (s : str) : list str :=
  runs (fun c => negb (isspace c)) 1 s.

(** [pattern.split(s)] for a pattern that is one character class: [s]
    is cut at every code point of the class. *)
Fixpoint re_split_aux (cls : codepoint -> bool) (cur : str) (s : str)
  : list str :=
  match s with
  | [] => [rev cur]
  | c :: rest =>
      if cls c then rev cur :: re_split_aux cls [] rest
      else re_split_aux cls (c :: cur) rest
  end.

Definition re_split (cls : codepoint -> bool) (s : str) : list str :=
  re_split_aux cls [] s.

(** Membership in a character class given by its members. *)
Definition in_class (members : list codepoint) (c : codepoint) : bool :=
  existsb (N.eqb c) members.

(** [str(n)] for an integer. *)
Definition of_int (z : Z) : str :=
  lit (NilZero.string_of_int (Z.to_int z)).

End Str.

Import Str.

(** ** Numbers and errors *)

Module Num.

(** The exceptions the arithmetic of the module can raise. *)
Inductive exn := ZeroDivisionError.

Inductive result (A : Type) :=
| Ok (a : A)
| Raise (e : exn).
Arguments Ok {A} a.
Arguments Raise {A} e.

Definition bind {A B} (r : result A) (k : A -> result B) : result B :=
  match r with
  | Ok a => k a
  | Raise e => Raise e
  end.

(** A Python number as the module has them: an [int], or a [float],
    which is an IEEE 754 binary64 value. *)
Inductive number :=
| PyInt (z : Z)
| PyFloat (f : spec_float).

Definition prec : Z := 53.
Definition emax : Z := 1024.

(** An integer as an exact (not normalised) binary float. *)
Definition int_to_sf (z : Z) : spec_float :=
  match z with
  | Z0 => S754_zero false
  | Zpos p => S754_finite false p 0
  | Zneg p => S754_finite true p 0
  end.

(** The binary64 value nearest to the quotient of two integers. *)
Definition nearest_quotient (a b : Z) : spec_float :=
  SFdiv prec emax (int_to_sf a) (int_to_sf b).

(** [a / b] on two [int]s: the float nearest to the quotient;
    [ZeroDivisionError] for a zero divisor.  (CPython also raises
    [OverflowError] when the quotient is beyond the range of a float,
    which lengths of strings cannot reach.) *)
Definition truediv (a b : Z) : result number :=
  if (b =? 0)%Z then Raise ZeroDivisionError
  else Ok (PyFloat (nearest_quotient a b)).

(** [n / d] rounded to an integer, ties to the even one ([0 < d]). *)
Definition round_half_even (n d : Z) : Z :=
  let q := (n / d)%Z in
  let r := (n mod d)%Z in
  match (2 * r ?= d)%Z with
  | Lt => q
  | Gt => (q + 1)%Z
  | Eq => if Z.even q then q else (q + 1)%Z
  end.

(** The integer nearest to [x * 10^ndigits] for a finite float [x],
    computed on the exact value of [x]. *)
Definition scaled (ndigits : nat) (s : bool) (m : positive) (e : Z) : Z :=
  round_half_even
    (cond_Zopp s (Zpos m) * 10 ^ Z.of_nat ndigits * 2 ^ Z.max e 0)
    (2 ^ Z.max (- e) 0).

(** [round(x, ndigits)] for [0 <= ndigits].  An [int] is returned as
    it is.  A finite float is printed with [ndigits] decimals,
    correctly rounded, and the decimal is read back: the result is the
    float nearest to [h / 10^ndigits], where [h] is the integer
    nearest to [x * 10^ndigits].  Zeros, infinities and NaN round to
    themselves. *)
Definition round (x : number) (ndigits : nat) : number :=
  match x with
  | PyInt z => PyInt z
  | PyFloat (S754_finite s m e) =>
      let h := scaled ndigits s m e in
      if (h =? 0)%Z then PyFloat (S754_zero s)
      else PyFloat (nearest_quotient h (10 ^ Z.of_nat ndigits))
  | PyFloat f => PyFloat f
  end.

(** The exact value of a float, as a rational. *)
Definition SF2Q (f : spec_float) : Q :=
  match f with
  | S754_finite s m e => inject_Z (cond_Zopp s (Zpos m)) * Qpower 2 e
  | _ => 0
  end.

(** The decimal with [ndigits] decimals that [round] selects for a
    float, as a rational. *)
Definition rounded_decimal (ndigits : nat) (f : spec_float) : Q :=
  match f with
  | S754_finite s m e =>
      inject_Z (scaled ndigits s m e) / inject_Z (10 ^ Z.of_nat ndigits)
  | _ => 0
  end.

End Num.

Import Num.

Notation "'let*' x ':=' c1 'in' c2" := (bind c1 (fun x => c2))
  (at level 10, x name, c1 at level 100, c2 at level 200).

(** ** The module [persian_writer.analysis] *)

(** [SENTENCE_ENDINGS = re.compile(r"[\.؟!！!]")]: the members of the
    character class as the pattern lists them, that is the full stop,
    the Arabic question mark U+061F, the exclamation mark, the
    full-width exclamation mark U+FF01, and the exclamation mark once
    more. *)
Definition SENTENCE_ENDINGS : list codepoint :=
  [46; 1567; 33; 65281; 33]%N.

(** [REPEATED_SPACES = re.compile(r"\s{2,}")]: the class and the least
    number of repetitions. *)
Definition REPEATED_SPACES : (codepoint -> bool) * nat := (isspace, 2).

(** The four messages of the typography checks. *)

(** "فاصله قبل از ویرگول را حذف کنید." *)
Definition ALERT_COMMA : str :=
  [1601; 1575; 1589; 1604; 1607; 32; 1602; 1576; 1604; 32; 1575; 1586; 32;
   1608; 1740; 1585; 1711; 1608; 1604; 32; 1585; 1575; 32; 1581; 1584; 1601;
   32; 1705; 1606; 1740; 1583; 46]%N.

(** "فاصله قبل از نقطه ویرگول نباید باشد." *)
Definition ALERT_SEMICOLON : str :=
  [1601; 1575; 1589; 1604; 1607; 32; 1602; 1576; 1604; 32; 1575; 1586; 32;
   1606; 1602; 1591; 1607; 32; 1608; 1740; 1585; 1711; 1608; 1604; 32; 1606;
   1576; 1575; 1740; 1583; 32; 1576; 1575; 1588; 1583; 46]%N.

(** "از دو علامت تعجب پشت سر هم پرهیز کنید." *)
Definition ALERT_EXCLAMATION : str :=
  [1575; 1586; 32; 1583; 1608; 32; 1593; 1604; 1575; 1605; 1578; 32; 1578;
   1593; 1580; 1576; 32; 1662; 1588; 1578; 32; 1587; 1585; 32; 1607; 1605;
   32; 1662; 1585; 1607; 1740; 1586; 32; 1705; 1606; 1740; 1583; 46]%N.

(** "از چند علامت سوال پشت سر هم پرهیز کنید." *)
Definition ALERT_QUESTION : str :=
  [1575; 1586; 32; 1670; 1606; 1583; 32; 1593; 1604; 1575; 1605; 1578; 32;
   1587; 1608; 1575; 1604; 32; 1662; 1588; 1578; 32; 1587; 1585; 32; 1607;
   1605; 32; 1662; 1585; 1607; 1740; 1586; 32; 1705; 1606; 1740; 1583; 46]%N.

Record TextMetrics := {
  words : Z;
  sentences : Z;
  paragraphs : Z;
  average_sentence_length : number;
  average_paragraph_length : number;
  long_sentences : list str;
  repeated_spaces : list str;
  typography_alerts : list str
}.

(** [len] of a list. *)
Definition len {A} (l : list A) : Z := Z.of_nat (length l).

(** Truth value of a list. *)
Definition nonempty {A} (l : list A) : bool :=
  match l with [] => false | _ :: _ => true end.

Section Analysis.

(** [str.isalnum] on one code point: the alphanumeric table of the
    Unicode database of the interpreter. *)
Variable isalnum : codepoint -> bool.

(** The class [\w] of [re] on a [str] pattern. *)
Definition isword (c : codepoint) : bool := isalnum c || (c =? 95)%N.

(** The three segmentations, as [analyze_text] computes them. *)

(** [[p.strip() for p in text.split("\n\n") if p.strip()]] *)
Definition paragraph_list (text : str) : list str :=
  List.map strip
    (List.filter (fun p => truthy (strip p)) (split [10; 10]%N text)).

(** [SENTENCE_ENDINGS.split(text)], then
    [[s.strip() for s in sentences if s.strip()]] *)
Definition sentence_list (text : str) : list str :=
  let sentences := re_split (in_class SENTENCE_ENDINGS) text in
  List.map strip (List.filter (fun s => truthy (strip s)) sentences).

(** [re.findall(r"\w+", text, flags=re.UNICODE)] *)
Definition word_list (text : str) : list str := runs isword 1 text.

Definition analyze_text (text : str) : result TextMetrics :=
  let paragraphs := paragraph_list text in
  let sentences := sentence_list text in
  let words := word_list text in
  let* avg_sentence_length :=
    (if nonempty sentences then truediv (len words) (len sentences)
     else Ok (PyInt 0)) in
  let* avg_paragraph_length :=
    (if nonempty paragraphs then truediv (len words) (len paragraphs)
     else Ok (PyInt 0)) in
  let long_sentences :=
    List.filter (fun s => (30 <? len (split_ws s))%Z) sentences in
  let repeated_spaces :=
    runs (fst REPEATED_SPACES) (snd REPEATED_SPACES) text in
  let typography_alerts := [] in
  let typography_alerts :=
    if contains [32; 44]%N text
    then typography_alerts ++ [ALERT_COMMA] else typography_alerts in
  let typography_alerts :=
    if contains [32; 59]%N text
    then typography_alerts ++ [ALERT_SEMICOLON] else typography_alerts in
  let typography_alerts :=
    if contains [33; 32; 33]%N text
    then typography_alerts ++ [ALERT_EXCLAMATION] else typography_alerts in
  let typography_alerts :=
    if contains [63; 32; 63]%N text
    then typography_alerts ++ [ALERT_QUESTION] else typography_alerts in
  Ok {| words := len words;
        sentences := len sentences;
        paragraphs := len paragraphs;
        average_sentence_length := round avg_sentence_length 2;
        average_paragraph_length := round avg_paragraph_length 2;
        long_sentences := long_sentences;
        repeated_spaces := repeated_spaces;
        typography_alerts := typography_alerts |}.

End Analysis.

(** Fixed texts of the report. *)

(** "## شاخص‌های متن" and a line feed *)
Definition TITLE : str :=
  [35; 35; 32; 1588; 1575; 1582; 1589; 8204; 1607; 1575; 1740; 32; 1605;
   1578; 1606; 10]%N.

(** "- تعداد واژه‌ها: " *)
Definition LABEL_WORDS : str :=
  [45; 32; 1578; 1593; 1583; 1575; 1583; 32; 1608; 1575; 1688; 1607; 8204;
   1607; 1575; 58; 32]%N.

(** "- تعداد جمله‌ها: " *)
Definition LABEL_SENTENCES : str :=
  [45; 32; 1578; 1593; 1583; 1575; 1583; 32; 1580; 1605; 1604; 1607; 8204;
   1607; 1575; 58; 32]%N.

(** "- تعداد پاراگراف‌ها: " *)
Definition LABEL_PARAGRAPHS : str :=
  [45; 32; 1578; 1593; 1583; 1575; 1583; 32; 1662; 1575; 1585; 1575; 1711;
   1585; 1575; 1601; 8204; 1607; 1575; 58; 32]%N.

(** "- میانگین طول جمله: " *)
Definition LABEL_AVG_SENTENCE : str :=
  [45; 32; 1605; 1740; 1575; 1606; 1711; 1740; 1606; 32; 1591; 1608; 1604;
   32; 1580; 1605; 1604; 1607; 58; 32]%N.

(** "- میانگین طول پاراگراف: " *)
Definition LABEL_AVG_PARAGRAPH : str :=
  [45; 32; 1605; 1740; 1575; 1606; 1711; 1740; 1606; 32; 1591; 1608; 1604;
   32; 1662; 1575; 1585; 1575; 1711; 1585; 1575; 1601; 58; 32]%N.

(** " واژه" and a line feed *)
Definition UNIT_WORDS : str := [32; 1608; 1575; 1688; 1607; 10]%N.

(** "جمله‌های بلند (بیش از ۳۰ واژه):" and a line feed *)
Definition LONG_HEADER : str :=
  [1580; 1605; 1604; 1607; 8204; 1607; 1575; 1740; 32; 1576; 1604; 1606;
   1583; 32; 40; 1576; 1740; 1588; 32; 1575; 1586; 32; 1779; 1776; 32; 1608;
   1575; 1688; 1607; 41; 58; 10]%N.

(** "هشدار: فاصله‌های تکراری پیدا شد." and a line feed *)
Definition SPACES_FLAG : str :=
  [1607; 1588; 1583; 1575; 1585; 58; 32; 1601; 1575; 1589; 1604; 1607; 8204;
   1607; 1575; 1740; 32; 1578; 1705; 1585; 1575; 1585; 1740; 32; 1662; 1740;
   1583; 1575; 32; 1588; 1583; 46; 10]%N.

(** "هشدارهای ویرایشی:" and a line feed *)
Definition ALERTS_HEADER : str :=
  [1607; 1588; 1583; 1575; 1585; 1607; 1575; 1740; 32; 1608; 1740; 1585;
   1575; 1740; 1588; 1740; 58; 10]%N.

(** [f"- {item}\n"] *)
Definition bullet (item : str) : str := [45; 32]%N ++ item ++ [10]%N.

Section Report.

(** [repr] of a float, which an f-string uses for it. *)
Variable float_repr : spec_float -> str.

(** What an f-string prints for a number. *)
Definition number_str (x : number) : str :=
  match x with
  | PyInt z => of_int z
  | PyFloat f => float_repr f
  end.

(** The first seven entries of [lines]. *)
Definition summary_lines (metrics : TextMetrics) : list str :=
  [ TITLE;
    LABEL_WORDS ++ of_int (words metrics) ++ [10]%N;
    LABEL_SENTENCES ++ of_int (sentences metrics) ++ [10]%N;
    LABEL_PARAGRAPHS ++ of_int (paragraphs metrics) ++ [10]%N;
    LABEL_AVG_SENTENCE ++ number_str (average_sentence_length metrics)
      ++ UNIT_WORDS;
    LABEL_AVG_PARAGRAPH ++ number_str (average_paragraph_length metrics)
      ++ UNIT_WORDS;
    [10]%N ].

(** [for item in items: lines.append(f"- {item}\n")] *)
Definition append_bullets (lines : list str) (items : list str) : list str :=
  fold_left (fun lines item => lines ++ [bullet item]) items lines.

(** The list [lines] when [format_metrics] reaches its [return]. *)
Definition report_lines (metrics : TextMetrics) : list str :=
  let lines := summary_lines metrics in
  let lines :=
    if nonempty (long_sentences metrics) then
      let lines := lines ++ [LONG_HEADER] in
      let lines := append_bullets lines (long_sentences metrics) in
      lines ++ [[10]%N]
    else lines in
  let lines :=
    if nonempty (repeated_spaces metrics) then lines ++ [SPACES_FLAG]
    else lines in
  let lines :=
    if nonempty (typography_alerts metrics) then
      let lines := lines ++ [ALERTS_HEADER] in
      append_bullets lines (typography_alerts metrics)
    else lines in
  lines.

Definition format_metrics (metrics : TextMetrics) : str :=
  concat (report_lines metrics).

End Report.

(** ** Notions the statements use *)

(** [r] occurs in [t] between [pre] and [post] and is a maximal run of
    the class [cls]: not empty, all of the class, and neither the code
    point before it nor the one after it is of the class. *)
Record maximal_run (cls : codepoint -> bool) (t pre r post : str) : Prop := {
  run_occurs : t = pre ++ r ++ post;
  run_not_empty : r <> [];
  run_in_class : Forall (fun c => cls c = true) r;
  run_left : forall c, last pre = Some c -> cls c = false;
  run_right : forall c, head post = Some c -> cls c = false
}.

(** [sub] occurs in [t]. *)
Definition occurs_in (sub t : str) : Prop :=
  exists pre post, t = pre ++ sub ++ post.

(** How many entries of [l] are the string [a]. *)
Definition occurrences (a : str) (l : list str) : nat :=
  length (List.filter (Str.eqb a) l).

(** The typography checks, in the order [analyze_text] runs them: the
    substring looked for and the message. *)
Definition CHECKS : list (str * str) :=
  [ ([32; 44]%N, ALERT_COMMA);
    ([32; 59]%N, ALERT_SEMICOLON);
    ([33; 32; 33]%N, ALERT_EXCLAMATION);
    ([63; 32; 63]%N, ALERT_QUESTION) ].

Definition ALERTS : list str := List.map snd CHECKS.

(** The alerts of the checks that match, in the order of the checks. *)
Definition alerts_of (text : str) : list str :=
  List.concat
    (List.map
       (fun check => if contains (fst check) text then [snd check] else [])
       CHECKS).

(** The average that [analyze_text] returns for [n] words in [k]
    segments. *)
Definition average (n k : Z) : number :=
  if (k =? 0)%Z then PyInt 0 else round (PyFloat (nearest_quotient n k)) 2.

(** The occurrences that a scan for runs of at least [n] code points of
    the class [cls] reports when it has read [pre]: the maximal runs of
    that length that start at or after the end of [pre], from the
    left. *)
Definition reported (cls : codepoint -> bool) (n : nat) (t pre : str)
  (occs : list (str * str * str)) : Prop :=
  (forall p r q,
      In (p, r, q) occs <->
      maximal_run cls t p r q /\ n <= length r /\ length pre <= length p)
  /\ StronglySorted (fun a b => length a.1.1 < length b.1.1) occs.

(** The three optional parts of the report. *)
Definition long_part (metrics : TextMetrics) : list str :=
  if nonempty (long_sentences metrics)
  then LONG_HEADER :: List.map bullet (long_sentences metrics) ++ [[10%N]]
  else [].

Definition spaces_part (metrics : TextMetrics) : list str :=
  if nonempty (repeated_spaces metrics) then [SPACES_FLAG] else [].

Definition alerts_part (metrics : TextMetrics) : list str :=
  if nonempty (typography_alerts metrics)
  then ALERTS_HEADER :: List.map bullet (typography_alerts metrics)
  else [].

(** [M] is an integer nearest to [num / den] (for [0 < den]). *)
Definition nearest (M num den : Z) : Prop :=
  (2 * Z.abs (M * den - num) <= den)%Z.

(** The float that [round] returns for the decimal [h / 100] with a
    non-negative [h]: the float nearest to it. *)
Definition hundredths_float (h : Z) : spec_float :=
  if (h =? 0)%Z then S754_zero false else nearest_quotient h 100.

(** A token: not empty, no white space in it. *)
Definition token (w : str) : Prop :=
  w <> [] /\ Forall (fun c => isspace c = false) w.

(** Tokens separated by one space each. *)
Fixpoint join_space (toks : list str) : str :=
  match toks with
  | [] => []
  | [w] => w
  | w :: rest => w ++ 32%N :: join_space rest
  end.

(** The letters and digits of ASCII, an instance of the alphanumeric
    table for examples. *)
Definition ascii_alnum (c : codepoint) : bool :=
  ((48 <=? c) && (c <=? 57) || (65 <=? c) && (c <=? 90)
   || (97 <=? c) && (c <=? 122))%N.

(** A stand-in for [repr] of a float in examples. *)
Definition no_repr (f : spec_float) : str := [].

(** The float that the literal [3.33] denotes. *)
Definition float_3_33 : spec_float :=
  S754_finite false 7498493379571876 (-51).

(** Texts of the examples. *)
Definition text_one_two_three : str := lit "One. Two! Three?".
Definition text_questions : str := lit "A? B? C?".
Definition text_spaces : str := lit "a  b   c".
Definition text_comma : str := lit "word , next".
Definition text_commas : str := lit "one , two , three".
Definition text_ten_in_three : str := lit "a b c d. e f g. h i j.".

(** A sentence of [k] tokens, each the letter w. *)
Definition sentence_of (k : nat) : str := join_space (List.repeat [119%N] k).

(** Metrics of a text with one long sentence, a repeated space and one
    alert, for the examples of the report. *)
Definition sample_metrics : TextMetrics :=
  {| words := 31; sentences := 1; paragraphs := 1;
     average_sentence_length := PyFloat (nearest_quotient 31 1);
     average_paragraph_length := PyFloat (nearest_quotient 31 1);
     long_sentences := [sentence_of 31];
     repeated_spaces := [[32; 32]%N];
     typography_alerts := [ALERT_COMMA] |}.

(** ** Notions for the long sentences *)

(** [pieces] are the stretches of [t] between its code points of the
    class [cls], from the left: no piece holds a code point of the
    class, and [t] is the pieces with one such code point between each
    two. *)
Inductive cut_at (cls : codepoint -> bool) : str -> list str -> Prop :=
| cut_last p :
    Forall (fun c => cls c = false) p -> cut_at cls p [p]
| cut_cons p c rest pieces :
    Forall (fun c => cls c = false) p -> cls c = true ->
    cut_at cls rest pieces ->
    cut_at cls (p ++ c :: rest) (p :: pieces).

(** [s] is [p] without the white space at its two ends. *)
Definition trimmed_of (p s : str) : Prop :=
  exists l r,
    p = l ++ s ++ r
    /\ Forall (fun c => isspace c = true) l
    /\ Forall (fun c => isspace c = true) r
    /\ (forall c, head s = Some c -> isspace c = false)
    /\ (forall c, last s = Some c -> isspace c = false).

(** [s] has [n] tokens: [n] maximal runs of code points that are no
    white space. *)
Definition token_count (s : str) (n : nat) : Prop :=
  exists occs : list (str * str * str),
    length occs = n
    /\ (forall pre run post,
           In (pre, run, post) occs <->
           maximal_run (fun c => negb (isspace c)) s pre run post)
    /\ StronglySorted (fun a b => length a.1.1 < length b.1.1) occs.

(** [long] lists, in their order, the pieces that have more than 30
    tokens, each without the white space at its ends. *)
Inductive long_of : list str -> list str -> Prop :=
| long_nil : long_of [] []
| long_keep p s n pieces long :
    trimmed_of p s -> token_count s n -> 30 < n ->
    long_of pieces long -> long_of (p :: pieces) (s :: long)
| long_skip p s n pieces long :
    trimmed_of p s -> token_count s n -> n <= 30 ->
    long_of pieces long -> long_of (p :: pieces) long.

(** A sentence of 31 tokens between white space, with its full stop. *)
Definition text_padded : str :=
  [32; 10]%N ++ sentence_of 31 ++ [32; 9; 46]%N.

(** ** Notions for the report as a string *)

(** A string of one line: no line feed in it. *)
Definition no_line_feed (s : str) : Prop := ~ In 10%N s.

(** The two headers and the flag of the report without their line
    feed. *)
Definition LONG_TEXT : str := removelast LONG_HEADER.
Definition FLAG_TEXT : str := removelast SPACES_FLAG.
Definition ALERTS_TEXT : str := removelast ALERTS_HEADER.

(** A hyphen, a space and the item: the line of an item of a list
    without its line feed. *)
Definition bullet_text (item : str) : str := [45; 32]%N ++ item.

(** The lines of the report, the line feeds between them taken off:
    the seven lines of the summary and the three optional parts. *)
Definition summary_texts (float_repr : spec_float -> str)
  (metrics : TextMetrics) : list str :=
  [ removelast TITLE;
    LABEL_WORDS ++ of_int (words metrics);
    LABEL_SENTENCES ++ of_int (sentences metrics);
    LABEL_PARAGRAPHS ++ of_int (paragraphs metrics);
    LABEL_AVG_SENTENCE
      ++ number_str float_repr (average_sentence_length metrics)
      ++ removelast UNIT_WORDS;
    LABEL_AVG_PARAGRAPH
      ++ number_str float_repr (average_paragraph_length metrics)
      ++ removelast UNIT_WORDS;
    [] ].

Definition long_texts (metrics : TextMetrics) : list str :=
  match long_sentences metrics with
  | [] => []
  | _ => LONG_TEXT :: List.map bullet_text (long_sentences metrics) ++ [[]]
  end.

Definition flag_texts (metrics : TextMetrics) : list str :=
  match repeated_spaces metrics with
  | [] => []
  | _ => [FLAG_TEXT]
  end.

Definition alerts_texts (metrics : TextMetrics) : list str :=
  match typography_alerts metrics with
  | [] => []
  | _ => ALERTS_TEXT :: List.map bullet_text (typography_alerts metrics)
  end.

(** What comes after the last line feed of the report is empty. *)
Definition report_texts (float_repr : spec_float -> str)
  (metrics : TextMetrics) : list str :=
  summary_texts float_repr metrics ++ long_texts metrics
    ++ flag_texts metrics ++ alerts_texts metrics ++ [[]].

(** A line that starts like a line of the summary or of a list, or is
    empty. *)
Definition plain_text (line : str) : Prop :=
  match line with
  | c :: _ => c = 35%N \/ c = 45%N
  | [] => True
  end.

(** Metrics without long sentences whose one alert has two lines, the
    second one the text of the header of the long sentences. *)
Definition forged_metrics : TextMetrics :=
  {| words := 0; sentences := 0; paragraphs := 0;
     average_sentence_length := PyInt 0;
     average_paragraph_length := PyInt 0;
     long_sentences := [];
     repeated_spaces := [];
     typography_alerts := [[120; 10]%N ++ LONG_TEXT] |}.

(** A long sentence with a space before a comma and two spaces in a
    row: a text for all three optional parts of the report. *)
Definition text_all_parts : str :=
  sentence_of 31 ++ [32; 44; 32; 32; 120; 46]%N.

(** ** Further notions *)

(** [sep.join(pieces)] *)
Fixpoint join (sep : str) (pieces : list str) : str :=
  match pieces with
  | [] => []
  | [p] => p
  | p :: rest => p ++ sep ++ join sep rest
  end.

(** A string that neither is empty nor starts or ends with white
    space. *)
Definition trimmed (s : str) : Prop :=
  s <> []
  /\ (forall c, head s = Some c -> isspace c = false)
  /\ (forall c, last s = Some c -> isspace c = false).

(** ** The module [persian_writer.book] *)

Module Chapter.

Record t := mk {
  title : str;
  filename : str;
  summary : str;
  goals : list str;
  draft_status : str
}.

End Chapter.

Module BookProject.

(** [root] is the path of the project directory, as its string. *)
Record t := mk {
  root : str;
  title : str;
  author : str;
  genre : str;
  tone : str;
  target_length_words : Z;
  created_at : str;
  synopsis : str;
  audience : str;
  language : str;
  chapters : list Chapter.t;
  custom_guidelines : list str
}.

End BookProject.

(** "خلاصه:" and a line feed *)
Definition SUMMARY_HEADER : str :=
  [1582; 1604; 1575; 1589; 1607; 58; 10]%N.

(** "(اینجا خلاصه فصل را بنویسید)" and two line feeds *)
Definition SUMMARY_PLACEHOLDER : str :=
  [40; 1575; 1740; 1606; 1580; 1575; 32; 1582; 1604; 1575; 1589; 1607; 32;
   1601; 1589; 1604; 32; 1585; 1575; 32; 1576; 1606; 1608; 1740; 1587;
   1740; 1583; 41; 10; 10]%N.

(** "اهداف فصل:" and a line feed *)
Definition GOALS_HEADER : str :=
  [1575; 1607; 1583; 1575; 1601; 32; 1601; 1589; 1604; 58; 10]%N.

(** The three goals of a chapter that has none of its own. *)
Definition DEFAULT_GOALS : list str :=
  [
    [1576; 1575; 32; 1605; 1593; 1585; 1601; 1740; 32; 1605; 1587; 1574;
     1604; 1607; 32; 1740; 1575; 32; 1587; 1608; 1575; 1604; 32; 1575;
     1589; 1604; 1740; 32; 1588; 1585; 1608; 1593; 32; 1705; 1606; 1740;
     1583; 46]%N;
    [1575; 1586; 32; 1585; 1608; 1575; 1740; 1578; 8204; 1607; 1575; 32;
     1608; 32; 1605; 1579; 1575; 1604; 8204; 1607; 1575; 1740; 32; 1605;
     1604; 1605; 1608; 1587; 32; 1601; 1575; 1585; 1587; 1740; 32; 1575;
     1587; 1578; 1601; 1575; 1583; 1607; 32; 1705; 1606; 1740; 1583; 46]%N;
    [1575; 1586; 32; 1606; 1602; 1604; 32; 1602; 1608; 1604; 8204; 1607;
     1575; 1740; 32; 1605; 1593; 1578; 1576; 1585; 32; 1576; 1585; 1575;
     1740; 32; 1578; 1602; 1608; 1740; 1578; 32; 1575; 1587; 1578; 1583;
     1604; 1575; 1604; 32; 1576; 1607; 1585; 1607; 32; 1576; 1711; 1740;
     1585; 1740; 1583; 46]%N
  ].

(** The eighteen lines that [lines.extend] adds: the suggested structure,
    the body, the notes on revision and the sources of the chapter. *)
Definition TEMPLATE_REST : list str :=
  [
    [10]%N;
    [35; 35; 32; 1587; 1575; 1582; 1578; 1575; 1585; 32; 1662; 1740; 1588;
     1606; 1607; 1575; 1583; 1740; 10]%N;
    [49; 46; 32; 1605; 1602; 1583; 1605; 1607; 32; 1608; 32; 1591; 1585;
     1581; 32; 1662; 1585; 1587; 1588; 10]%N;
    [50; 46; 32; 1575; 1585; 1575; 1574; 1607; 32; 1586; 1605; 1740; 1606;
     1607; 32; 1608; 32; 1662; 1740; 1588; 8204; 1601; 1585; 1590; 8204;
     1607; 1575; 10]%N;
    [51; 46; 32; 1576; 1587; 1591; 32; 1575; 1740; 1583; 1607; 8204; 1607;
     1575; 32; 1576; 1575; 32; 1606; 1605; 1608; 1606; 1607; 8204; 1607;
     1575; 1740; 32; 1605; 1587; 1578; 1606; 1583; 10]%N;
    [52; 46; 32; 1580; 1605; 1593; 8204; 1576; 1606; 1583; 1740; 32; 1605;
     1608; 1602; 1578; 32; 1608; 32; 1591; 1585; 1581; 32; 1662; 1585;
     1587; 1588; 32; 1576; 1593; 1583; 1740; 10]%N;
    [53; 46; 32; 1740; 1575; 1583; 1583; 1575; 1588; 1578; 8204; 1607;
     1575; 1740; 32; 1662; 1688; 1608; 1607; 1588; 1740; 32; 1608; 32;
     1605; 1606; 1575; 1576; 1593; 10]%N;
    [10]%N;
    [35; 35; 32; 1576; 1583; 1606; 1607; 32; 1601; 1589; 1604; 10]%N;
    [40; 1575; 1740; 1606; 1580; 1575; 32; 1662; 1740; 1588; 8204; 1606;
     1608; 1740; 1587; 32; 1705; 1575; 1605; 1604; 32; 1601; 1589; 1604;
     32; 1585; 1575; 32; 1576; 1606; 1608; 1740; 1587; 1740; 1583; 41; 10]%N;
    [10]%N;
    [35; 35; 32; 1576; 1575; 1586; 1606; 1608; 1740; 1587; 1740; 32; 1608;
     32; 1608; 1740; 1585; 1575; 1740; 1588; 10]%N;
    [45; 32; 1608; 1590; 1608; 1581; 32; 1580; 1605; 1604; 1575; 1578; 32;
     1585; 1575; 32; 1576; 1585; 1585; 1587; 1740; 32; 1705; 1606; 1740;
     1583; 46; 10]%N;
    [45; 32; 1604; 1581; 1606; 32; 1585; 1575; 32; 1576; 1575; 32; 1604;
     1581; 1606; 32; 1705; 1604; 1740; 32; 1705; 1578; 1575; 1576; 32;
     1607; 1605; 1575; 1607; 1606; 1711; 32; 1606; 1711; 1607; 32; 1583;
     1575; 1585; 1740; 1583; 46; 10]%N;
    [45; 32; 1575; 1591; 1605; 1740; 1606; 1575; 1606; 32; 1575; 1586; 32;
     1662; 1740; 1608; 1587; 1578; 1711; 1740; 32; 1605; 1606; 1591; 1602;
     1740; 32; 1576; 1582; 1588; 8204; 1607; 1575; 46; 10]%N;
    [10]%N;
    [35; 35; 32; 1601; 1607; 1585; 1587; 1578; 32; 1605; 1606; 1575; 1576;
     1593; 32; 1601; 1589; 1604; 10]%N;
    [45; 32; 1606; 1608; 1740; 1587; 1606; 1583; 1607; 1548; 32; 171;
     1593; 1606; 1608; 1575; 1606; 187; 1548; 32; 1606; 1575; 1588; 1585;
     1548; 32; 1587; 1575; 1604; 46; 10]%N
  ].

(** The code points that [_slugify] replaces after the space, as its
    loop runs over them. *)
Definition SLUG_BAD : str :=
  [8204; 9; 10; 13; 1548; 1567; 1563; 33; 1563; 1563]%N.

(** [s.replace(old, new)] for two strings of one code point each. *)
Definition replace_char (old new : codepoint) (s : str) : str :=
  List.map (fun c => if (c =? old)%N then new else c) s.

(** [f"{z:02d}"]: the decimal of [z], with a zero in front when it has
    one character only. *)
Definition format_02d (z : Z) : str :=
  let s := of_int z in
  if (length s <? 2)%nat then 48%N :: s else s.

(** The list [lines] of [_chapter_template] when it is joined. *)
Definition template_lines (chapter : Chapter.t) : list str :=
  let lines :=
    [ [35; 32]%N ++ Chapter.title chapter ++ [10]%N;
      [10]%N;
      SUMMARY_HEADER;
      (if truthy (Chapter.summary chapter)
       then Chapter.summary chapter ++ [10; 10]%N
       else SUMMARY_PLACEHOLDER);
      GOALS_HEADER ] in
  let goals :=
    if nonempty (Chapter.goals chapter) then Chapter.goals chapter
    else DEFAULT_GOALS in
  let lines := fold_left (fun lines goal => lines ++ [bullet goal]) goals lines in
  let lines := lines ++ TEMPLATE_REST in
  lines.

Definition _chapter_template (chapter : Chapter.t) : str :=
  concat (template_lines chapter).

Section Slug.

(** [str.lower], the lower-casing of the interpreter. *)
Variable lower : str -> str.

(** The value of [normalized] before it is lower-cased. *)
Definition slug_normalized (text : str) : str :=
  let normalized := replace_char 32%N 45%N (strip text) in
  fold_left (fun normalized bad => replace_char bad 45%N normalized)
    SLUG_BAD normalized.

Definition _slugify (text : str) : str :=
  lower (slug_normalized text).

End Slug.

(** ** Files *)

(** A value that [json.dump] writes. *)
#[warnings="-register-all"] Inductive json :=
| JStr (s : str)
| JInt (z : Z)
| JList (items : list json)
| JDict (entries : list (str * json)).

(** [chapter.__dict__]: the fields of a chapter, in their order. *)
Definition chapter_dict (chapter : Chapter.t) : json :=
  JDict
    [ (lit "title", JStr (Chapter.title chapter));
      (lit "filename", JStr (Chapter.filename chapter));
      (lit "summary", JStr (Chapter.summary chapter));
      (lit "goals", JList (List.map JStr (Chapter.goals chapter)));
      (lit "draft_status", JStr (Chapter.draft_status chapter)) ].

Definition to_dict (self : BookProject.t) : json :=
  JDict
    [ (lit "root", JStr (BookProject.root self));
      (lit "title", JStr (BookProject.title self));
      (lit "author", JStr (BookProject.author self));
      (lit "genre", JStr (BookProject.genre self));
      (lit "tone", JStr (BookProject.tone self));
      (lit "target_length_words", JInt (BookProject.target_length_words self));
      (lit "created_at", JStr (BookProject.created_at self));
      (lit "synopsis", JStr (BookProject.synopsis self));
      (lit "audience", JStr (BookProject.audience self));
      (lit "language", JStr (BookProject.language self));
      (lit "custom_guidelines",
       JList (List.map JStr (BookProject.custom_guidelines self)));
      (lit "chapters",
       JList (List.map chapter_dict (BookProject.chapters self))) ].

(** How a call ends: it returns a value or raises an exception. *)
Inductive outcome (error A : Type) :=
| Returns (a : A)
| Raises (e : error).

Arguments Returns {error A} a.
Arguments Raises {error A} e.

Section Files.

(** [str.lower], the lower-casing of the interpreter. *)
Variable lower : str -> str.

(** The states of the file system, and the exceptions that its
    operations raise. *)
Variables world error : Type.

(** The operations on files.  A path is given by the string of the
    root and the parts that [/] joins to it; an operation gives the
    exception it raises, if any, and the state it leaves. *)

(** [path.mkdir(parents=parents, exist_ok=True)] *)
Variable mkdir : str -> list str -> bool -> world -> option error * world.

(** [with open(path, "w", encoding="utf-8") as fp:
       json.dump(value, fp, ensure_ascii=False, indent=2)] *)
Variable dump : str -> list str -> json -> world -> option error * world.

(** [path.write_text(text, encoding="utf-8")] *)
Variable write_text : str -> list str -> str -> world -> option error * world.

Definition save (self : BookProject.t) (w : world) : option error * world :=
  match mkdir (BookProject.root self) [] true w with
  | (Some e, w) => (Some e, w)
  | (None, w) =>
      match mkdir (BookProject.root self) [lit "chapters"] false w with
      | (Some e, w) => (Some e, w)
      | (None, w) =>
          dump (BookProject.root self) [lit "book.json"] (to_dict self) w
      end
  end.

Definition _write_chapter_template (self : BookProject.t)
  (chapter : Chapter.t) (w : world) : option error * world :=
  let template := _chapter_template chapter in
  write_text (BookProject.root self)
    [lit "chapters"; Chapter.filename chapter] template w.

(** [add_chapter]: the project after the call, how the call ends, and
    the state of the file system after it.  The chapter is appended
    to the list of the project before a file is touched, so it stays
    there when a later step raises. *)
Definition add_chapter (self : BookProject.t) (title summary : str)
  (goals : option (list str)) (w : world)
  : BookProject.t * outcome error Chapter.t * world :=
  let goals :=
    match goals with
    | Some g => if nonempty g then g else []
    | None => []
    end in
  let index := (len (BookProject.chapters self) + 1)%Z in
  let filename :=
    format_02d index ++ [45]%N ++ _slugify lower title ++ [46; 109; 100]%N in
  let chapter :=
    Chapter.mk title filename summary goals (lit "not-started") in
  let self :=
    BookProject.mk (BookProject.root self) (BookProject.title self)
      (BookProject.author self) (BookProject.genre self)
      (BookProject.tone self) (BookProject.target_length_words self)
      (BookProject.created_at self) (BookProject.synopsis self)
      (BookProject.audience self) (BookProject.language self)
      (BookProject.chapters self ++ [chapter])
      (BookProject.custom_guidelines self) in
  match save self w with
  | (Some e, w) => (self, Raises e, w)
  | (None, w) =>
      match _write_chapter_template self chapter w with
      | (Some e, w) => (self, Raises e, w)
      | (None, w) => (self, Returns chapter, w)
      end
  end.

End Files.

(** ** The module [persian_writer.outline] *)

Module OutlineItem.

Record t := mk {
  title : str;
  summary : str;
  word_target : Z
}.

End OutlineItem.

(** "فصل " *)
Definition OUTLINE_TITLE : str :=
  [1601; 1589; 1604; 32]%N.

(** "گسترش خط روایی در بخش " *)
Definition OUTLINE_SUMMARY_1 : str :=
  [1711; 1587; 1578; 1585; 1588; 32; 1582; 1591; 32; 1585; 1608; 1575;
   1740; 1740; 32; 1583; 1585; 32; 1576; 1582; 1588; 32]%N.

(** " با تاکید بر مخاطب " *)
Definition OUTLINE_SUMMARY_2 : str :=
  [32; 1576; 1575; 32; 1578; 1575; 1705; 1740; 1583; 32; 1576; 1585; 32;
   1605; 1582; 1575; 1591; 1576; 32]%N.

(** "عمومی" *)
Definition GENERAL_AUDIENCE : str :=
  [1593; 1605; 1608; 1605; 1740]%N.

(** [a // b] on two [int]s. *)
Definition floordiv (a b : Z) : result Z :=
  if (b =? 0)%Z then Raise ZeroDivisionError else Ok (a / b)%Z.

(** [range(start, stop)] *)
Definition range (start stop : Z) : list Z :=
  List.map (fun k => (start + Z.of_nat k)%Z)
    (seq 0 (Z.to_nat (stop - start))).

Definition build_outline (project : BookProject.t) (major_sections : Z)
  : result (list OutlineItem.t) :=
  let* q :=
    floordiv (BookProject.target_length_words project)
      (Z.max major_sections 1) in
  let avg_chapter_words := Z.max q 1500 in
  let outline := [] in
  let outline :=
    fold_left
      (fun outline idx =>
         outline ++
         [ OutlineItem.mk
             (OUTLINE_TITLE ++ of_int idx)
             (OUTLINE_SUMMARY_1 ++ of_int idx ++ OUTLINE_SUMMARY_2
                ++ (if truthy (BookProject.audience project)
                    then BookProject.audience project
                    else GENERAL_AUDIENCE)
                ++ [46]%N)
             avg_chapter_words ])
      (range 1 (major_sections + 1)) outline in
  Ok outline.

(** ** Notions for the book and the outline *)

(** The value of a string of decimal digits; [None] when a code point
    is no digit. *)
Fixpoint digits_value (acc : Z) (s : str) : option Z :=
  match s with
  | [] => Some acc
  | c :: rest =>
      if ((48 <=? c) && (c <=? 57))%N
      then digits_value (10 * acc + (Z.of_N c - 48))%Z rest
      else None
  end.

(** The part of a string before its first hyphen. *)
Fixpoint before_hyphen (s : str) : str :=
  match s with
  | [] => []
  | c :: rest => if (c =? 45)%N then [] else c :: before_hyphen rest
  end.

(** The number a file name starts with, up to its first hyphen. *)
Definition leading_number (name : str) : option Z :=
  digits_value 0 (before_hyphen name).

(** The chapters of a project carry their position (from 1) at the
    start of their file names, as chapters that [add_chapter] has added
    to a project without chapters do. *)
Definition numbered (project : BookProject.t) : Prop :=
  forall i chapter,
    BookProject.chapters project !! i = Some chapter ->
    leading_number (Chapter.filename chapter) = Some (Z.of_nat (S i)).


(** The sum of the word targets of an outline. *)
Definition total_target (outline : list OutlineItem.t) : Z :=
  fold_right (fun item acc => (OutlineItem.word_target item + acc)%Z) 0%Z
    outline.

(** A project for examples: no chapters, 60000 words. *)
Definition sample_project : BookProject.t :=
  BookProject.mk (lit "book") (lit "Title") (lit "Author") (lit "essay")
    (lit "formal") 60000 (lit "2024-01-01T00:00:00") [] [] (lit "fa") [] [].

(** A stand-in for [str.lower] in examples: the letters of ASCII. *)
Definition ascii_lower (s : str) : str :=
  List.map (fun c => if ((65 <=? c) && (c <=? 90))%N then (c + 32)%N else c) s.

(** A project for examples with one chapter. *)
Definition sample_book : BookProject.t :=
  BookProject.mk (lit "book") (lit "Title") (lit "Author") (lit "essay")
    (lit "formal") 60000 (lit "2024-01-01T00:00:00") [] [] (lit "fa")
    [Chapter.mk (lit "Intro") (lit "01-intro.md") [] [] (lit "not-started")]
    [].

(** A file system for examples: its state is the list of the paths made
    or written, the last one first; making a directory and writing the
    project file succeed, and writing a text raises the one exception
    there is when the last part of the path has a slash in it, as its
    directory is missing then. *)
Definition sample_mkdir (root : str) (parts : list str) (parents : bool)
  (w : list (list str)) : option unit * list (list str) :=
  (None, (root :: parts) :: w).

Definition sample_dump (root : str) (parts : list str) (value : json)
  (w : list (list str)) : option unit * list (list str) :=
  (None, (root :: parts) :: w).

Definition sample_write_text (root : str) (parts : list str) (text : str)
  (w : list (list str)) : option unit * list (list str) :=
  if existsb (N.eqb 47%N) (List.last parts [])
  then (Some tt, w)
  else (None, (root :: parts) :: w).


(** ** The runtime functions on examples *)

Example strip_example : strip (lit "  a b  ") = lit "a b".
Proof. reflexivity. Qed.

Example split_example :
  split [10; 10]%N [97; 10; 10; 10; 98; 10; 10]%N
  = [[97]; [10; 98]; []]%N.
Proof. reflexivity. Qed.

Example split_ws_example :
  split_ws [32; 97; 32; 32; 98; 9; 99; 10]%N = [[97]; [98]; [99]]%N.
Proof. reflexivity. Qed.

Example re_split_example :
  re_split (in_class SENTENCE_ENDINGS) (lit "One. Two!")
  = [lit "One"; lit " Two"; []].
Proof. reflexivity. Qed.

Example runs_example : runs isspace 2 (lit "a b  c") = [lit "  "].
Proof. reflexivity. Qed.

Example of_int_example : of_int 120 = lit "120".
Proof. reflexivity. Qed.

(** [10 / 3] is [3.3333333333333335], [round(1 / 8, 2)] is [0.12], and
    [round(3 / 200, 2)] is [0.01] because the float [0.015] is below
    the decimal [0.015]. *)
Example truediv_example :
  truediv 10 3 = Ok (PyFloat (S754_finite false 7505999378950827 (-51))).
Proof. reflexivity. Qed.

Example round_tie_example :
  round (PyFloat (nearest_quotient 1 8)) 2 = PyFloat (hundredths_float 12).
Proof. reflexivity. Qed.

Example round_below_tie_example :
  round (PyFloat (nearest_quotient 3 200)) 2 = PyFloat (hundredths_float 1).
Proof. reflexivity. Qed.

Example truediv_by_zero_example : truediv 10 0 = Raise ZeroDivisionError.
Proof. reflexivity. Qed.

(** ** Helper lemmas *)

Lemma len_cons_not_zero {A} (x : A) (l : list A) : (len (x :: l) =? 0)%Z = false.
Proof. unfold len. apply Z.eqb_neq. simpl length. lia. Qed.

Lemma nonempty_len {A} (l : list A) : nonempty l = negb (len l =? 0)%Z.
Proof. destruct l; [reflexivity|]. now rewrite len_cons_not_zero. Qed.

Lemma analyze_text_Ok isalnum text :
  analyze_text isalnum text =
  Ok {| words := len (word_list isalnum text);
        sentences := len (sentence_list text);
        paragraphs := len (paragraph_list text);
        average_sentence_length :=
          average (len (word_list isalnum text)) (len (sentence_list text));
        average_paragraph_length :=
          average (len (word_list isalnum text)) (len (paragraph_list text));
        long_sentences :=
          List.filter (fun s => (30 <? len (split_ws s))%Z) (sentence_list text);
        repeated_spaces := runs isspace 2 text;
        typography_alerts := alerts_of text |}.
Proof.
  unfold analyze_text, average, alerts_of, truediv.
  rewrite !nonempty_len.
  destruct (len (sentence_list text) =? 0)%Z, (len (paragraph_list text) =? 0)%Z;
    cbn [negb bind]; (f_equal; f_equal);
    cbn [CHECKS List.map fst snd List.concat REPEATED_SPACES];
    destruct (contains [32%N; 44%N] text), (contains [32%N; 59%N] text),
      (contains [33%N; 32%N; 33%N] text), (contains [63%N; 32%N; 63%N] text);
    reflexivity.
Qed.


(** *** Substrings *)

Lemma startswith_true p s :
  startswith p s = true <-> exists rest, s = p ++ rest.
Proof.
  revert s. induction p as [|a p IH]; intros s; simpl.
  - split; eauto.
  - destruct s as [|b s].
    + split; [discriminate | intros [rest H]; discriminate H].
    + rewrite andb_true_iff, N.eqb_eq, IH. split.
      * intros [-> [rest ->]]. now exists rest.
      * intros [rest H]. injection H as -> ->. eauto.
Qed.

Lemma contains_true sub t : contains sub t = true <-> occurs_in sub t.
Proof.
  unfold occurs_in. induction t as [|c t IH]; simpl.
  - rewrite orb_false_r, startswith_true. split.
    + intros [rest H]. exists [], rest. exact H.
    + intros [pre [post H]]. destruct pre as [|x pre]; [|discriminate H].
      now exists post.
  - rewrite orb_true_iff, startswith_true, IH. split.
    + intros [[rest H] | [pre [post H]]].
      * exists [], rest. exact H.
      * exists (c :: pre), post. now rewrite H.
    + intros [pre [post H]]. destruct pre as [|x pre].
      * left. now exists post.
      * right. injection H as _ H. now exists pre, post.
Qed.

Lemma contains_false sub t : contains sub t = false <-> ~ occurs_in sub t.
Proof.
  rewrite <- contains_true. destruct (contains sub t); split; congruence.
Qed.

Lemma eqb_eq a b : Str.eqb a b = true <-> a = b.
Proof.
  revert b. induction a as [|x a IH]; intros [|y b]; simpl;
    try (split; [discriminate | intros H; discriminate H]); [tauto|].
  rewrite andb_true_iff, N.eqb_eq, IH. split.
  - now intros [-> ->].
  - intros H. now injection H.
Qed.

(** *** The typography checks *)

Lemma ALERTS_NoDup : NoDup ALERTS.
Proof.
  unfold ALERTS. cbn [List.map CHECKS snd].
  repeat (apply NoDup_cons; split;
          [rewrite ?not_elem_of_cons; repeat split;
           try discriminate; apply not_elem_of_nil|]).
  apply NoDup_nil_2.
Qed.

Lemma alerts_of_sublist text : sublist (alerts_of text) ALERTS.
Proof.
  unfold alerts_of, ALERTS. cbn [List.map List.concat CHECKS fst snd].
  destruct (contains [32%N; 44%N] text), (contains [32%N; 59%N] text),
    (contains [33%N; 32%N; 33%N] text), (contains [63%N; 32%N; 63%N] text);
    cbn [app];
    repeat first [apply sublist_nil | apply sublist_skip | apply sublist_cons].
Qed.

Lemma alerts_of_occurrences text sub alert :
  In (sub, alert) CHECKS ->
  occurrences alert (alerts_of text) = if contains sub text then 1 else 0.
Proof.
  unfold alerts_of. cbn [List.map List.concat CHECKS fst snd In].
  intros [H | [H | [H | [H | []]]]]; injection H as <- <-;
    destruct (contains [32%N; 44%N] text), (contains [32%N; 59%N] text),
      (contains [33%N; 32%N; 33%N] text), (contains [63%N; 32%N; 63%N] text);
    reflexivity.
Qed.


(** *** Maximal runs *)

Section Runs.

Variable cls : codepoint -> bool.

Lemma run_at pre run post j :
  Forall (fun c => cls c = true) run ->
  length pre <= j < length pre + length run ->
  exists c, (pre ++ run ++ post) !! j = Some c /\ cls c = true.
Proof.
  intros Hall Hj.
  rewrite lookup_app_r by lia. rewrite lookup_app_l by lia.
  destruct (lookup_lt_is_Some_2 run (j - length pre)) as [c Hc]; [lia|].
  exists c. split; [exact Hc|].
  rewrite Forall_lookup in Hall. exact (Hall _ _ Hc).
Qed.

Lemma run_before pre rest :
  (forall c, last pre = Some c -> cls c = false) ->
  0 < length pre ->
  exists c, (pre ++ rest) !! (length pre - 1) = Some c /\ cls c = false.
Proof.
  intros Hl Hpos. rewrite lookup_app_l by lia.
  destruct (lookup_lt_is_Some_2 pre (length pre - 1)) as [c Hc]; [lia|].
  exists c. split; [exact Hc|]. apply Hl.
  rewrite last_lookup. rewrite <- Hc. f_equal. lia.
Qed.

Lemma run_after pre run post :
  (forall c, head post = Some c -> cls c = false) ->
  length pre + length run < length (pre ++ run ++ post) ->
  exists c, (pre ++ run ++ post) !! (length pre + length run) = Some c
            /\ cls c = false.
Proof.
  intros Hr Hlt. rewrite !length_app in Hlt.
  rewrite lookup_app_r by lia. rewrite lookup_app_r by lia.
  replace (length pre + length run - length pre - length run) with 0 by lia.
  destruct post as [|c post]; [simpl in Hlt; lia|].
  exists c. split; [reflexivity|]. now apply Hr.
Qed.

(** A run that is closed on both sides is the only maximal run that
    starts within it or at its end. *)
Lemma run_unique pre run post p r q :
  Forall (fun c => cls c = true) run ->
  (forall c, last pre = Some c -> cls c = false) ->
  (forall c, head post = Some c -> cls c = false) ->
  maximal_run cls (pre ++ run ++ post) p r q ->
  length pre <= length p ->
  (p = pre /\ r = run /\ q = post) \/ length pre + length run + 1 <= length p.
Proof.
  intros Hrun Hleft Hright [Hocc Hne Hall Hl Hr] Hle.
  destruct (decide (length pre + length run + 1 <= length p)) as [|Hin];
    [now right | left].
  assert (Hlen : length (pre ++ run ++ post) = length (p ++ r ++ q))
    by now rewrite Hocc.
  assert (Hr0 : 0 < length r) by (destruct r; [congruence | simpl; lia]).
  assert (Hp : length p = length pre).
  { destruct (decide (length pre < length p)) as [Hlt|]; [|lia].
    destruct (run_at pre run post (length p - 1) Hrun) as [c [Hc Hcls]];
      [lia|].
    destruct (run_before p (r ++ q) Hl) as [c' [Hc' Hcls']]; [lia|].
    rewrite Hocc in Hc. congruence. }
  assert (Hrl : length r = length run).
  { rewrite !length_app in Hlen.
    destruct (decide (length r < length run)) as [Hlt|Hge].
    - destruct (run_at pre run post (length p + length r) Hrun)
        as [c [Hc Hcls]]; [lia|].
      destruct (run_after p r q Hr) as [c' [Hc' Hcls']];
        [rewrite !length_app; lia|].
      rewrite Hocc in Hc. congruence.
    - destruct (decide (length run < length r)) as [Hlt|]; [|lia].
      destruct (run_at p r q (length pre + length run) Hall)
        as [c [Hc Hcls]]; [lia|].
      destruct (run_after pre run post Hright) as [c' [Hc' Hcls']];
        [rewrite !length_app; lia|].
      rewrite Hocc in Hc'. congruence. }
  symmetry in Hocc.
  apply app_inj_1 in Hocc as [-> Hocc]; [|exact Hp].
  apply app_inj_1 in Hocc as [-> ->]; [|exact Hrl].
  auto.
Qed.

Variable n : nat.
Hypothesis n_positive : 1 <= n.

Lemma emit_reported pre cur post :
  Forall (fun c => cls c = true) cur ->
  (forall c, last pre = Some c -> cls c = false) ->
  (forall c, head post = Some c -> cls c = false) ->
  exists occs,
    emit n cur = List.map (fun o => o.1.2) occs /\
    Forall (fun o => length o.1.1 = length pre) occs /\
    length occs <= 1 /\
    forall p r q,
      In (p, r, q) occs <->
      maximal_run cls (pre ++ rev cur ++ post) p r q /\ n <= length r
      /\ length p = length pre.
Proof using n_positive.
  intros Hcur Hleft Hright. unfold emit.
  assert (Hrev : Forall (fun c => cls c = true) (rev cur))
    by now apply Forall_rev.
  destruct (Nat.leb_spec n (length cur)) as [Hn|Hn].
  - exists [(pre, rev cur, post)].
    split; [reflexivity|]. split; [now repeat constructor|].
    split; [simpl; lia|]. intros p r q. split.
    + intros [H|[]]. injection H as <- <- <-.
      split; [|rewrite length_rev; lia]. split; try easy.
      intros E. apply (f_equal length) in E. rewrite length_rev in E.
      simpl in E. lia.
    + intros (Hmax & Hnr & Hp). left.
      destruct (run_unique pre (rev cur) post p r q Hrev Hleft Hright Hmax)
        as [(-> & -> & ->) | Hfar]; [lia | reflexivity | lia].
  - exists []. split; [reflexivity|]. split; [constructor|].
    split; [simpl; lia|]. intros p r q. split; [intros []|].
    intros (Hmax & Hnr & Hp).
    destruct (run_unique pre (rev cur) post p r q Hrev Hleft Hright Hmax)
      as [(-> & -> & ->) | Hfar]; [lia | | lia].
    rewrite length_rev in Hnr. lia.
Qed.

Lemma runs_aux_reported s :
  forall cur pre,
    Forall (fun c => cls c = true) cur ->
    (forall c, last pre = Some c -> cls c = false) ->
    exists occs,
      runs_aux cls n cur s = List.map (fun o => o.1.2) occs /\
      reported cls n (pre ++ rev cur ++ s) pre occs.
Proof using n_positive.
  induction s as [|c rest IH]; intros cur pre Hcur Hleft.
  - simpl runs_aux.
    destruct (emit_reported pre cur [] Hcur Hleft) as (occs & E & Hat & Hone & Hiff);
      [discriminate|].
    exists occs. split; [exact E|]. split.
    + intros p r q. rewrite Hiff. split.
      * intros (Hmax & Hnr & Hp). split; [exact Hmax | split; [exact Hnr | lia]].
      * intros (Hmax & Hnr & Hp). split; [exact Hmax | split; [exact Hnr |]].
        assert (Hrev : Forall (fun c => cls c = true) (rev cur))
          by now apply Forall_rev.
        destruct (run_unique pre (rev cur) [] p r q Hrev Hleft) as
          [(-> & _) | Hfar]; [discriminate | exact Hmax | exact Hp | reflexivity |].
        destruct Hmax as [Hocc _ _ _ _]. apply (f_equal length) in Hocc.
        rewrite !length_app in Hocc. simpl in Hocc. lia.
    + destruct occs as [|o [|o' occs]]; simpl in Hone; try lia;
        repeat constructor.
  - simpl runs_aux. destruct (cls c) eqn:Hc.
    + destruct (IH (c :: cur) pre) as (occs & E & Hrep);
        [now constructor | exact Hleft |].
      exists occs. split; [exact E|].
      simpl rev in Hrep. now rewrite <- !app_assoc in Hrep.
    + assert (Hhead : forall c', head (c :: rest) = Some c' -> cls c' = false)
        by (intros c' [= <-]; exact Hc).
      destruct (emit_reported pre cur (c :: rest) Hcur Hleft Hhead)
        as (occs1 & E1 & Hat & Hone & Hiff1).
      destruct (IH [] (pre ++ rev cur ++ [c])) as (occs2 & E2 & Hiff2 & Hsort2).
      { constructor. }
      { intros c'. rewrite !app_assoc, last_snoc. now intros [= <-]. }
      simpl rev in Hiff2. rewrite app_nil_l in Hiff2.
      replace ((pre ++ rev cur ++ [c]) ++ rest)
        with (pre ++ rev cur ++ c :: rest) in Hiff2
        by now rewrite <- !app_assoc.
      exists (occs1 ++ occs2). split; [now rewrite List.map_app, E1, E2|].
      assert (Hfar : forall p r q, In (p, r, q) occs2 ->
                        length pre + length cur + 1 <= length p).
      { intros p r q Hin. apply Hiff2 in Hin as (_ & _ & Hp).
        rewrite !length_app, length_rev in Hp. simpl in Hp. lia. }
      split.
      * intros p r q. rewrite in_app_iff, Hiff1, Hiff2. split.
        -- intros [(Hmax & Hnr & Hp) | (Hmax & Hnr & Hp)];
             (split; [exact Hmax | split; [exact Hnr |]]); [lia|].
           rewrite !length_app in Hp. lia.
        -- intros (Hmax & Hnr & Hp).
           assert (Hrev : Forall (fun c => cls c = true) (rev cur))
             by now apply Forall_rev.
           destruct (run_unique pre (rev cur) (c :: rest) p r q Hrev Hleft Hhead Hmax Hp)
             as [(-> & _) | Hp'].
           ++ left. auto.
           ++ right. split; [exact Hmax | split; [exact Hnr |]].
              rewrite !length_app, length_rev in *. simpl. lia.
      * destruct occs1 as [|[[p1 r1] q1] [|o' occs1]]; simpl in Hone; try lia;
          [exact Hsort2|].
        simpl app. constructor; [exact Hsort2|].
        apply Forall_forall. intros [[p r] q] Hin.
        apply list_elem_of_In in Hin. apply Hfar in Hin.
        apply Forall_cons in Hat as [Hat _]. simpl in *. lia.
Qed.

Lemma runs_reported t :
  exists occs,
    runs cls n t = List.map (fun o => o.1.2) occs /\
    (forall p r q,
        In (p, r, q) occs <-> maximal_run cls t p r q /\ n <= length r) /\
    StronglySorted (fun a b => length a.1.1 < length b.1.1) occs.
Proof using n_positive.
  destruct (runs_aux_reported t [] []) as (occs & E & Hiff & Hsort);
    [constructor | discriminate |].
  exists occs. split; [exact E|]. split; [|exact Hsort].
  intros p r q. rewrite (Hiff p r q). simpl. intuition lia.
Qed.

End Runs.


(** *** Rounding *)

Lemma round_half_even_nearest n d :
  (0 < d)%Z -> (2 * Z.abs (n - round_half_even n d * d) <= d)%Z.
Proof.
  intros Hd. unfold round_half_even.
  pose proof (Z.div_mod n d ltac:(lia)) as Hdm.
  pose proof (Z.mod_pos_bound n d Hd) as Hr.
  destruct (Z.compare_spec (2 * (n mod d)) d) as [E|L|G];
    [destruct (Z.even (n / d))| |]; nia.
Qed.

Lemma round_half_even_exact n : round_half_even n 1 = n.
Proof.
  unfold round_half_even. rewrite Z.mod_1_r, Z.div_1_r. reflexivity.
Qed.

(** A quotient of integers is within half a unit of the last place of
    its rounding to hundredths, thousandths, ... *)
Lemma decimal_distance (v d h D : Z) :
  (0 < d)%Z -> (0 < D)%Z -> (2 * Z.abs (v * D - h * d) <= d)%Z ->
  (Qabs (inject_Z v / inject_Z d - inject_Z h / inject_Z D)
   <= 1 / inject_Z (2 * D))%Q.
Proof.
  intros Hd HD Hnear.
  assert (E : (inject_Z v / inject_Z d - inject_Z h / inject_Z D
               == inject_Z (v * D - h * d) / inject_Z (d * D))%Q).
  { unfold Z.sub.
    rewrite !inject_Z_mult, inject_Z_plus, inject_Z_opp, !inject_Z_mult.
    field. split; intros H; unfold Qeq in H; simpl in H; lia. }
  rewrite E. clear E.
  destruct d as [|d|d]; try lia. destruct D as [|D|D]; try lia.
  unfold Qdiv, Qinv, Qmult, Qabs, Qle, inject_Z. simpl.
  rewrite ?Z.mul_1_r, ?Pos.mul_1_r. simpl in Hnear.
  nia.
Qed.

Lemma Qpower_2_nonneg e : (0 <= e)%Z -> (2 ^ e == inject_Z (2 ^ e))%Q.
Proof. intros He. now rewrite Zpower_Qpower. Qed.

Lemma Qpower_2_neg e : (e < 0)%Z -> (2 ^ e == / inject_Z (2 ^ (- e)))%Q.
Proof.
  intros He. replace e with (- - e)%Z at 1 by lia.
  rewrite Qpower_opp, Zpower_Qpower by lia. reflexivity.
Qed.

(** [round] keeps a float within half a unit of the last decimal. *)
Lemma rounded_decimal_near ndigits f :
  (Qabs (SF2Q f - rounded_decimal ndigits f)
   <= 1 / inject_Z (2 * 10 ^ Z.of_nat ndigits))%Q.
Proof.
  assert (HD : (0 < 10 ^ Z.of_nat ndigits)%Z) by (apply Z.pow_pos_nonneg; lia).
  destruct f as [s| s| |s m e]; cbn [SF2Q rounded_decimal];
    try (destruct (2 * 10 ^ Z.of_nat ndigits)%Z eqn:E; try lia;
         unfold Qle; simpl; lia).
  unfold scaled. set (v := cond_Zopp s (Z.pos m)).
  set (D := (10 ^ Z.of_nat ndigits)%Z) in *.
  destruct (Z.le_gt_cases 0 e) as [He|He].
  - rewrite Z.max_l, Z.max_r by lia. rewrite Z.pow_0_r, round_half_even_exact.
    rewrite Qpower_2_nonneg by lia. rewrite <- inject_Z_mult.
    setoid_replace (inject_Z (v * 2 ^ e))
      with (inject_Z (v * 2 ^ e) / inject_Z 1)%Q using relation Qeq
      by (now field).
    apply decimal_distance; [lia | exact HD |].
    replace (v * 2 ^ e * D - v * D * 2 ^ e * 1)%Z with 0%Z by ring.
    simpl. lia.
  - rewrite Z.max_r, Z.max_l by lia. rewrite Z.pow_0_r, Z.mul_1_r.
    assert (Hd : (0 < 2 ^ (- e))%Z) by (apply Z.pow_pos_nonneg; lia).
    rewrite Qpower_2_neg by lia.
    apply decimal_distance; [exact Hd | exact HD |].
    apply round_half_even_nearest. exact Hd.
Qed.

Lemma rounded_hundredths_near f :
  (Qabs (SF2Q f - rounded_decimal 2 f) <= 1 # 200)%Q.
Proof. exact (rounded_decimal_near 2 f). Qed.


(** *** Tokens *)

Lemma runs_aux_app cls n w :
  Forall (fun c => cls c = true) w ->
  forall cur rest,
    runs_aux cls n cur (w ++ rest) = runs_aux cls n (rev w ++ cur) rest.
Proof.
  induction 1 as [|c w Hc _ IH]; intros cur rest; [reflexivity|].
  simpl. rewrite Hc, IH. now rewrite <- app_assoc.
Qed.

Lemma token_class w :
  token w -> Forall (fun c => negb (isspace c) = true) w.
Proof.
  intros [_ H]. eapply Forall_impl; [exact H|].
  intros c Hc. simpl in Hc. now rewrite Hc.
Qed.

Lemma emit_token w : token w -> emit 1 (rev w ++ []) = [w].
Proof.
  intros [Hne _]. unfold emit. rewrite app_nil_r, length_rev, rev_involutive.
  destruct w; [congruence | reflexivity].
Qed.

(** [s.split()] gives back tokens that single spaces separate. *)
Lemma split_ws_join toks :
  Forall token toks -> split_ws (join_space toks) = toks.
Proof.
  unfold split_ws, runs.
  induction 1 as [|w toks Hw Htoks IH]; [reflexivity|].
  destruct toks as [|w' toks].
  - simpl join_space. rewrite <- (app_nil_r w) at 1.
    rewrite runs_aux_app by now apply token_class.
    simpl. now apply emit_token.
  - change (join_space (w :: w' :: toks))
      with (w ++ 32%N :: join_space (w' :: toks)).
    rewrite runs_aux_app by now apply token_class.
    cbn [runs_aux]. change (negb (isspace 32%N)) with false. cbv iota.
    rewrite emit_token by exact Hw. simpl app. f_equal. exact IH.
Qed.

Lemma filter_sublist {A} (f : A -> bool) (l : list A) :
  sublist (List.filter f l) l.
Proof.
  induction l as [|x l IH]; simpl; [constructor|].
  destruct (f x); now constructor.
Qed.

(** *** The report *)

Lemma append_bullets_map lines items :
  append_bullets lines items = lines ++ List.map bullet items.
Proof.
  unfold append_bullets. revert lines.
  induction items as [|x items IH]; intros lines; simpl.
  - now rewrite app_nil_r.
  - rewrite IH. now rewrite <- app_assoc.
Qed.

Lemma nonempty_true {A} (l : list A) : nonempty l = true <-> l <> [].
Proof. destruct l; simpl; split; congruence. Qed.

Lemma report_lines_parts float_repr metrics :
  report_lines float_repr metrics =
  summary_lines float_repr metrics ++ long_part metrics
    ++ spaces_part metrics ++ alerts_part metrics.
Proof.
  unfold report_lines, long_part, spaces_part, alerts_part.
  rewrite !append_bullets_map.
  destruct (nonempty (long_sentences metrics)),
    (nonempty (repeated_spaces metrics)),
    (nonempty (typography_alerts metrics));
    simpl; rewrite <- ?app_assoc, ?app_nil_r; simpl;
    rewrite <- ?app_assoc; reflexivity.
Qed.

(** *** The float quotient *)

Lemma digits2_bounds p :
  (2 ^ (Z.pos (digits2_pos p) - 1) <= Z.pos p < 2 ^ Z.pos (digits2_pos p))%Z.
Proof.
  induction p as [p IH|p IH|]; cbn [digits2_pos].
  - rewrite Pos2Z.inj_succ.
    replace (Z.succ (Z.pos (digits2_pos p)) - 1)%Z
      with (Z.succ (Z.pos (digits2_pos p) - 1))%Z by lia.
    rewrite !Z.pow_succ_r by lia. lia.
  - rewrite Pos2Z.inj_succ.
    replace (Z.succ (Z.pos (digits2_pos p)) - 1)%Z
      with (Z.succ (Z.pos (digits2_pos p) - 1))%Z by lia.
    rewrite !Z.pow_succ_r by lia. lia.
  - simpl. lia.
Qed.

(** The number of binary digits of a positive integer, from bounds. *)
Lemma digits2_unique p k :
  (0 < k)%Z -> (2 ^ (k - 1) <= Z.pos p < 2 ^ k)%Z -> Z.pos (digits2_pos p) = k.
Proof.
  intros Hk [Hlo Hhi]. destruct (digits2_bounds p) as [Hlo' Hhi'].
  set (d := Z.pos (digits2_pos p)) in *.
  assert (Hd : (0 < d)%Z) by (subst d; lia).
  destruct (Z.lt_trichotomy d k) as [H|[H|H]]; [|exact H|].
  - assert ((2 ^ d <= 2 ^ (k - 1))%Z) by (apply Z.pow_le_mono_r; lia). lia.
  - assert ((2 ^ k <= 2 ^ (d - 1))%Z) by (apply Z.pow_le_mono_r; lia). lia.
Qed.

Lemma new_location_cases b r :
  (0 < b)%Z -> (0 <= r < b)%Z ->
  match new_location b r with
  | loc_Exact => r = 0%Z
  | loc_Inexact Lt => (0 < r /\ 2 * r < b)%Z
  | loc_Inexact Eq => (0 < r /\ 2 * r = b)%Z
  | loc_Inexact Gt => (0 < r /\ b < 2 * r)%Z
  end.
Proof.
  intros Hb Hr. unfold new_location, new_location_even, new_location_odd.
  destruct (Z.even b) eqn:Eb; destruct (Z.eqb_spec r 0) as [|Hr0];
    try assumption.
  - destruct (Z.compare_spec (2 * r) b); lia.
  - rewrite <- Z.negb_odd in Eb. apply negb_false_iff in Eb.
    apply Z.odd_spec in Eb as [k Hk].
    destruct (Z.compare_spec (2 * r + 1) b); lia.
Qed.

Lemma round_nearest_even_location q b r :
  (0 < b)%Z -> (0 <= r < b)%Z ->
  nearest (round_nearest_even q (new_location b r)) (q * b + r) b
  /\ (q <= round_nearest_even q (new_location b r) <= q + 1)%Z.
Proof.
  intros Hb Hr. pose proof (new_location_cases b r Hb Hr) as H.
  unfold nearest, round_nearest_even.
  destruct (new_location b r) as [|[| |]]; [| destruct (Z.even q) | |];
    split; nia.
Qed.

Lemma half_even z : (2 * z / 2 = z)%Z.
Proof. symmetry. apply Z.div_unique with 0%Z; lia. Qed.

Lemma half_odd z : ((2 * z + 1) / 2 = z)%Z.
Proof. symmetry. apply Z.div_unique with 1%Z; lia. Qed.

(** One shift to the right, with the round and sticky bits. *)
Lemma shifted_round_nearest_even p b r :
  (2 <= Z.pos p)%Z -> (0 < b)%Z -> (0 <= r < b)%Z ->
  let mrs := shr_1 (shr_record_of_loc (Z.pos p) (new_location b r)) in
  let M := round_nearest_even (shr_m mrs) (loc_of_shr_record mrs) in
  nearest M (Z.pos p * b + r) (2 * b)
  /\ (Z.pos p / 2 <= M <= Z.pos p / 2 + 1)%Z.
Proof.
  intros Hp Hb Hr. pose proof (new_location_cases b r Hb Hr) as H.
  unfold nearest.
  destruct p as [p|p|]; [| |lia];
    destruct (new_location b r) as [|[| |]];
    cbn [shr_record_of_loc shr_1 orb shr_m loc_of_shr_record
           round_nearest_even];
    rewrite ?(Pos2Z.inj_xI p), ?(Pos2Z.inj_xO p), ?half_even, ?half_odd;
    generalize (Z.pos p); intros z;
    try destruct (Z.even z);
    (split; lia).
Qed.

Lemma loc_of_record_of_loc m l :
  loc_of_shr_record (shr_record_of_loc m l) = l
  /\ shr_m (shr_record_of_loc m l) = m.
Proof. destruct l as [|[| |]]; split; reflexivity. Qed.

(** A mantissa of 53 bits is not shifted, one of 54 bits is shifted
    once. *)
Lemma shr_fexp_53 p e l :
  (2 ^ 52 <= Z.pos p < 2 ^ 53)%Z -> (-1074 <= e)%Z ->
  shr_fexp prec emax (Z.pos p) e l = (shr_record_of_loc (Z.pos p) l, e).
Proof.
  intros Hp He. unfold shr_fexp, fexp, emin, prec, emax. cbn [Zdigits2].
  rewrite (digits2_unique p 53) by (try exact Hp; lia).
  replace (Z.max (53 + e - 53) (3 - 1024 - 53) - e)%Z with 0%Z by lia.
  reflexivity.
Qed.

Lemma shr_fexp_54 p e l :
  (2 ^ 53 <= Z.pos p < 2 ^ 54)%Z -> (-1074 <= e)%Z ->
  shr_fexp prec emax (Z.pos p) e l
  = (shr_1 (shr_record_of_loc (Z.pos p) l), (e + 1)%Z).
Proof.
  intros Hp He. unfold shr_fexp, fexp, emin, prec, emax. cbn [Zdigits2].
  rewrite (digits2_unique p 54) by (try exact Hp; lia).
  replace (Z.max (54 + e - 53) (3 - 1024 - 53) - e)%Z with 1%Z by lia.
  reflexivity.
Qed.

(** The second rounding step of [binary_round_aux] on a mantissa that
    the first step has rounded: it only renormalises [2^53]. *)
Lemma renormalize M1 e :
  (2 ^ 52 <= M1 <= 2 ^ 53)%Z -> (-1074 <= e <= 970)%Z ->
  exists M E,
    (let '(mrs, e2) := shr_fexp prec emax M1 e loc_Exact in
     match shr_m mrs with
     | Z0 => S754_zero false
     | Zpos m =>
         if (e2 <=? emax - prec)%Z then S754_finite false m e2
         else S754_infinity false
     | Zneg _ => S754_nan
     end) = S754_finite false M E
    /\ (Z.pos M * 2 ^ (E - e) = M1)%Z /\ (e <= E <= e + 1)%Z
    /\ (2 ^ 52 <= Z.pos M)%Z.
Proof.
  intros HM He. destruct M1 as [|p|p]; try lia.
  destruct (Z.eq_dec (Z.pos p) (2 ^ 53)%Z) as [E53|N53].
  - rewrite shr_fexp_54 by lia. injection E53 as ->.
    cbn [shr_record_of_loc shr_1 shr_m orb].
    replace (e + 1 <=? emax - prec)%Z with true
      by (symmetry; apply Z.leb_le; unfold emax, prec; lia).
    do 2 eexists. split; [reflexivity|].
    replace (e + 1 - e)%Z with 1%Z by lia. repeat split; lia.
  - rewrite shr_fexp_53 by lia. cbn [shr_record_of_loc shr_m].
    replace (e <=? emax - prec)%Z with true
      by (symmetry; apply Z.leb_le; unfold emax, prec; lia).
    do 2 eexists. split; [reflexivity|].
    rewrite Z.sub_diag. repeat split; lia.
Qed.

(** [binary_round_aux] on the quotient [p] and remainder [r] of a
    division by [b]: the result is a float [M * 2^E] with [M] nearest
    to the scaled exact quotient. *)
Lemma binary_round_aux_quotient p e b r :
  (2 ^ 52 <= Z.pos p < 2 ^ 54)%Z -> (0 < b)%Z -> (0 <= r < b)%Z ->
  (-1074 <= e <= 960)%Z ->
  exists M E k,
    binary_round_aux prec emax false (Z.pos p) e (new_location b r)
    = S754_finite false M E
    /\ E = (e + k)%Z /\ (0 <= k <= 2)%Z
    /\ (2 * Z.abs (Z.pos M * 2 ^ k * b - (Z.pos p * b + r)) <= 2 ^ k * b)%Z
    /\ (2 ^ 52 <= Z.pos M)%Z.
Proof.
  intros Hp Hb Hr He. unfold binary_round_aux.
  destruct (Z.lt_ge_cases (Z.pos p) (2 ^ 53)%Z) as [Hlt|Hge].
  - rewrite shr_fexp_53 by lia.
    destruct (loc_of_record_of_loc (Z.pos p) (new_location b r)) as [-> ->].
    destruct (round_nearest_even_location (Z.pos p) b r Hb Hr) as [Hn HM].
    set (M1 := round_nearest_even (Z.pos p) (new_location b r)) in *.
    destruct (renormalize M1 e) as (M & E & Eq & HME & HE & H52); [lia | lia |].
    exists M, E, (E - e)%Z. split; [exact Eq|].
    split; [lia|]. split; [lia|]. split; [|exact H52].
    rewrite HME. unfold nearest in Hn.
    assert (0 < 2 ^ (E - e))%Z by (apply Z.pow_pos_nonneg; lia). nia.
  - rewrite shr_fexp_54 by lia.
    destruct (shifted_round_nearest_even p b r) as [Hn HM]; [lia | exact Hb | exact Hr |].
    cbv zeta in Hn, HM.
    set (mrs := shr_1 (shr_record_of_loc (Z.pos p) (new_location b r))) in *.
    set (M1 := round_nearest_even (shr_m mrs) (loc_of_shr_record mrs)) in *.
    assert (Hhalf : (2 ^ 52 <= Z.pos p / 2 < 2 ^ 53)%Z).
    { split; [apply Z.div_le_lower_bound | apply Z.div_lt_upper_bound]; lia. }
    destruct (renormalize M1 (e + 1)) as (M & E & Eq & HME & HE & H52);
      [lia | lia |].
    exists M, E, (E - e)%Z. split; [exact Eq|].
    split; [lia|]. split; [lia|]. split; [|exact H52].
    replace (E - e)%Z with (Z.succ (E - (e + 1))) by lia.
    rewrite Z.pow_succ_r by lia.
    assert (0 < 2 ^ (E - (e + 1)))%Z by (apply Z.pow_pos_nonneg; lia).
    unfold nearest in Hn. nia.
Qed.

Lemma div_eucl_div_mod a b : Z.div_eucl a b = ((a / b)%Z, (a mod b)%Z).
Proof. unfold Z.div, Z.modulo. now destruct (Z.div_eucl a b). Qed.

Lemma digits2_below p k :
  (0 <= k)%Z -> (Z.pos p < 2 ^ k)%Z -> (Z.pos (digits2_pos p) <= k)%Z.
Proof.
  intros Hk Hp. destruct (digits2_bounds p) as [Hlo _].
  destruct (Z.le_gt_cases (Z.pos (digits2_pos p)) k) as [H|H]; [exact H|].
  assert (2 ^ k <= 2 ^ (Z.pos (digits2_pos p) - 1))%Z
    by (apply Z.pow_le_mono_r; lia).
  lia.
Qed.

(** The float quotient of two positive integers below [2^45] is a float
    [M * 2^E] with a negative exponent, whose mantissa of 53 bits is an
    integer nearest to the exact quotient scaled by [2^(-E)]. *)
Lemma nearest_quotient_correct a b :
  (0 < a < 2 ^ 45)%Z -> (0 < b < 2 ^ 45)%Z ->
  exists M E,
    nearest_quotient a b = S754_finite false M E
    /\ (E < 0)%Z /\ nearest (Z.pos M) (a * 2 ^ (- E)) b
    /\ (2 ^ 52 <= Z.pos M)%Z.
Proof.
  intros Ha Hb. destruct a as [|pa|pa]; try lia. destruct b as [|pb|pb]; try lia.
  unfold nearest_quotient. cbn [int_to_sf SFdiv xorb].
  unfold SFdiv_core_binary. cbn [Zdigits2].
  destruct (digits2_bounds pa) as [Ha1 Ha2].
  destruct (digits2_bounds pb) as [Hb1 Hb2].
  pose proof (digits2_below pa 45%Z ltac:(lia) ltac:(lia)) as Hda.
  pose proof (digits2_below pb 45%Z ltac:(lia) ltac:(lia)) as Hdb.
  set (d1 := Z.pos (digits2_pos pa)) in *.
  set (d2 := Z.pos (digits2_pos pb)) in *.
  assert (Hd1 : (0 < d1)%Z) by (subst d1; lia).
  assert (Hd2 : (0 < d2)%Z) by (subst d2; lia).
  set (s := (53 + d2 - d1)%Z).
  replace (Z.min (fexp prec emax (d1 + 0 - (d2 + 0))) (0 - 0))%Z
    with (- s)%Z by (unfold fexp, emin, prec, emax, s; lia).
  replace (0 - 0 - - s)%Z with s by lia.
  destruct s as [|ps|ps] eqn:Es; try lia. rewrite <- Es.
  rewrite Z.shiftl_mul_pow2 by lia. rewrite div_eucl_div_mod.
  assert (Hs : (0 < 2 ^ s)%Z) by (apply Z.pow_pos_nonneg; lia).
  assert (Hlow : (2 ^ 52 * Z.pos pb <= Z.pos pa * 2 ^ s)%Z).
  { assert (E1 : (2 ^ (d1 - 1) * 2 ^ s = 2 ^ 52 * 2 ^ d2)%Z).
    { rewrite <- !Z.pow_add_r by lia. f_equal. lia. }
    nia. }
  assert (Hhigh : (Z.pos pa * 2 ^ s < 2 ^ 54 * Z.pos pb)%Z).
  { assert (E1 : (2 ^ d1 * 2 ^ s = 2 ^ 54 * 2 ^ (d2 - 1))%Z).
    { rewrite <- !Z.pow_add_r by lia. f_equal. lia. }
    nia. }
  set (n := (Z.pos pa * 2 ^ s)%Z) in *.
  pose proof (Z.div_mod n (Z.pos pb) ltac:(lia)) as Hdm.
  pose proof (Z.mod_pos_bound n (Z.pos pb) ltac:(lia)) as Hr.
  assert (Hq : (2 ^ 52 <= n / Z.pos pb < 2 ^ 54)%Z).
  { split; [apply Z.div_le_lower_bound | apply Z.div_lt_upper_bound]; lia. }
  destruct (n / Z.pos pb)%Z as [|q|q] eqn:Eq; try lia.
  destruct (binary_round_aux_quotient q (- s) (Z.pos pb) (n mod Z.pos pb))
    as (M & E & k & HR & HE & Hk & Hn & H52); try lia.
  exists M, E. split; [exact HR|]. split; [lia|]. split; [|exact H52].
  unfold nearest.
  assert (Hpow : (2 ^ s = 2 ^ k * 2 ^ (- E))%Z).
  { rewrite <- Z.pow_add_r by lia. f_equal. lia. }
  assert (Hk2 : (0 < 2 ^ k)%Z) by (apply Z.pow_pos_nonneg; lia).
  replace (Z.pos q * Z.pos pb + n mod Z.pos pb)%Z with n in Hn by lia.
  unfold n in Hn. rewrite Hpow in Hn.
  replace (Z.pos M * 2 ^ k * Z.pos pb - Z.pos pa * (2 ^ k * 2 ^ (- E)))%Z
    with (2 ^ k * (Z.pos M * Z.pos pb - Z.pos pa * 2 ^ (- E)))%Z in Hn by ring.
  rewrite Z.abs_mul, (Z.abs_eq (2 ^ k)) in Hn by lia.
  nia.
Qed.

(** Rounding the float quotient to two decimals selects hundredths
    nearest to the exact quotient. *)
Lemma round_quotient_nearest a b :
  (0 <= a < 2 ^ 45)%Z -> (0 < b < 2 ^ 45)%Z ->
  exists h,
    round (PyFloat (nearest_quotient a b)) 2 = PyFloat (hundredths_float h)
    /\ nearest h (100 * a) b.
Proof.
  intros Ha Hb. destruct (Z.eq_dec a 0%Z) as [->|Hpos].
  - exists 0%Z. split.
    + destruct b; try lia. reflexivity.
    + unfold nearest. simpl. lia.
  - destruct (nearest_quotient_correct a b) as (M & E & -> & HE & Hn & H52);
      [lia | lia |].
    cbn [round]. unfold scaled. cbn [cond_Zopp].
    rewrite Z.max_r, Z.max_l by lia.
    change (10 ^ Z.of_nat 2)%Z with 100%Z. rewrite Z.pow_0_r, Z.mul_1_r.
    set (P := (2 ^ (- E))%Z) in *.
    assert (HP : (0 < P)%Z) by (apply Z.pow_pos_nonneg; lia).
    pose proof (round_half_even_nearest (Z.pos M * 100) P HP) as Hh.
    set (h := round_half_even (Z.pos M * 100) P) in *.
    exists h. split; [unfold hundredths_float; now destruct (h =? 0)%Z|].
    unfold nearest in *.
    assert (Hbig : (127 * b < P)%Z) by nia.
    assert (Hid : (P * (h * b - 100 * a)
                   = b * (h * P - Z.pos M * 100)
                     + 100 * (Z.pos M * b - a * P))%Z) by ring.
    assert (Hsum : (2 * (P * Z.abs (h * b - 100 * a)) <= b * P + 100 * b)%Z).
    { rewrite <- (Z.abs_eq P) at 1 by lia. rewrite <- Z.abs_mul, Hid.
      pose proof (Z.abs_triangle (b * (h * P - Z.pos M * 100))
                    (100 * (Z.pos M * b - a * P))) as Ht.
      rewrite !Z.abs_mul in Ht. rewrite (Z.abs_eq b), (Z.abs_eq 100) in Ht by lia.
      rewrite <- Z.abs_opp in Hh.
      replace (- (Z.pos M * 100 - h * P))%Z with (h * P - Z.pos M * 100)%Z
        in Hh by ring.
      nia. }
    nia.
Qed.

(** * Strings and segments *)

(** ** Trimming *)

Lemma lstrip_spec s :
  exists l, s = l ++ lstrip s /\ Forall (fun c => isspace c = true) l
            /\ (forall c, head (lstrip s) = Some c -> isspace c = false).
Proof.
  induction s as [|c s (l & E & Hl & Hh)]; simpl.
  - exists []. repeat split; [constructor | discriminate].
  - destruct (isspace c) eqn:Hc.
    + exists (c :: l). simpl. rewrite <- E. repeat split; [|exact Hh].
      now constructor.
    + exists []. repeat split; [constructor|]. now intros c' [= <-].
Qed.

Lemma last_rev {A} (l : list A) : last (rev l) = head l.
Proof. destruct l as [|x l]; [reflexivity|]. simpl. apply last_snoc. Qed.

Lemma rstrip_spec s :
  exists r, s = rstrip s ++ r /\ Forall (fun c => isspace c = true) r
            /\ (forall c, last (rstrip s) = Some c -> isspace c = false).
Proof.
  unfold rstrip. destruct (lstrip_spec (rev s)) as (l & E & Hl & Hh).
  exists (rev l). split; [|split].
  - rewrite <- rev_app_distr, <- E. now rewrite rev_involutive.
  - now apply Forall_rev.
  - intros c. rewrite last_rev. apply Hh.
Qed.

(** [s.strip()] takes white space off both ends of [s], and all of it:
    what is left neither starts nor ends with white space. *)
Lemma strip_spec s :
  exists l r, s = l ++ strip s ++ r
              /\ Forall (fun c => isspace c = true) l
              /\ Forall (fun c => isspace c = true) r
              /\ (forall c, head (strip s) = Some c -> isspace c = false)
              /\ (forall c, last (strip s) = Some c -> isspace c = false).
Proof.
  unfold strip. destruct (lstrip_spec s) as (l & El & Hl & Hhead).
  destruct (rstrip_spec (lstrip s)) as (r & Er & Hr & Hlast).
  exists l, r. split; [now rewrite <- Er|]. repeat split; try assumption.
  intros c Hc. apply Hhead. rewrite Er.
  destruct (rstrip (lstrip s)); [discriminate Hc | exact Hc].
Qed.

Lemma lstrip_blank s :
  lstrip s = [] <-> Forall (fun c => isspace c = true) s.
Proof.
  induction s as [|c s IH]; simpl.
  - split; [constructor | reflexivity].
  - destruct (isspace c) eqn:Hc.
    + rewrite IH. split; [now constructor | now inversion 1].
    + split; [discriminate | inversion 1; congruence].
Qed.

Lemma strip_blank s :
  strip s = [] <-> Forall (fun c => isspace c = true) s.
Proof.
  split.
  - intros E. destruct (strip_spec s) as (l & r & Es & Hl & Hr & _).
    rewrite E in Es. rewrite Es. simpl. now apply Forall_app.
  - intros H. unfold strip, rstrip.
    apply lstrip_blank in H. rewrite H. reflexivity.
Qed.

Lemma truthy_true (s : str) : truthy s = true <-> s <> [].
Proof. destruct s; simpl; split; congruence. Qed.

Lemma occurs_in_refl s : occurs_in s s.
Proof. exists [], []. now rewrite app_nil_r. Qed.

Lemma occurs_in_trans a b c : occurs_in a b -> occurs_in b c -> occurs_in a c.
Proof.
  intros (p1 & q1 & ->) (p2 & q2 & ->).
  exists (p2 ++ p1), (q1 ++ q2). now rewrite <- !app_assoc.
Qed.

Lemma strip_occurs s : occurs_in (strip s) s.
Proof. destruct (strip_spec s) as (l & r & E & _). now exists l, r. Qed.

(** ** Cutting at a class of code points *)

Lemma occurs_in_app_l p a b : occurs_in p b -> occurs_in p (a ++ b).
Proof. intros (x & y & ->). exists (a ++ x), y. now rewrite <- app_assoc. Qed.

Section ReSplit.

Variable cls : codepoint -> bool.

Lemma re_split_aux_pieces s :
  forall cur,
    Forall (fun c => cls c = false) cur ->
    Forall (fun p => Forall (fun c => cls c = false) p
                     /\ occurs_in p (rev cur ++ s))
      (re_split_aux cls cur s).
Proof.
  induction s as [|c rest IH]; intros cur Hcur; simpl.
  - constructor; [|constructor]. split; [now apply Forall_rev|].
    rewrite app_nil_r. apply occurs_in_refl.
  - destruct (cls c) eqn:Hc.
    + constructor.
      * split; [now apply Forall_rev|]. exists [], (c :: rest). reflexivity.
      * eapply Forall_impl; [apply (IH []); constructor|].
        intros p [Hp Ho]. split; [exact Hp|].
        simpl in Ho. apply (occurs_in_app_l p (rev cur ++ [c])) in Ho.
        now rewrite <- app_assoc in Ho.
    + specialize (IH (c :: cur)). simpl in IH.
      rewrite <- app_assoc in IH. apply IH. now constructor.
Qed.

(** Every code point of the input is of the class or lies in a
    piece. *)
Lemma re_split_aux_covers s :
  forall cur c,
    In c (rev cur ++ s) ->
    cls c = true \/ exists p, In p (re_split_aux cls cur s) /\ In c p.
Proof.
  induction s as [|x rest IH]; intros cur c Hin; simpl.
  - rewrite app_nil_r in Hin. right. exists (rev cur). split; [now left | exact Hin].
  - destruct (cls x) eqn:Hx.
    + apply in_app_iff in Hin as [Hin | [<- | Hin]].
      * right. exists (rev cur). split; [now left | exact Hin].
      * now left.
      * destruct (IH [] c Hin) as [H | (p & Hp & Hc)]; [now left | right].
        exists p. split; [now right | exact Hc].
    + apply (IH (x :: cur)). simpl. now rewrite <- app_assoc.
Qed.

Lemma re_split_aux_length s :
  forall cur,
    length (concat (re_split_aux cls cur s)) <= length cur + length s.
Proof.
  induction s as [|x rest IH]; intros cur; simpl.
  - rewrite app_nil_r, length_rev. lia.
  - destruct (cls x).
    + simpl. rewrite length_app, length_rev. specialize (IH []). simpl in IH. lia.
    + specialize (IH (x :: cur)). simpl in IH. lia.
Qed.

End ReSplit.

(** ** Cutting at a separator *)


Lemma split_aux_skip sep t :
  forall cur s,
    split_aux sep (length t) cur (t ++ s) = split_aux sep 0 cur s.
Proof.
  induction t as [|x t IH]; intros cur s; [reflexivity|].
  simpl. apply IH.
Qed.

Lemma split_aux_cut sep cur s :
  sep <> [] ->
  split_aux sep 0 cur (sep ++ s) = rev cur :: split_aux sep 0 [] s.
Proof.
  intros Hsep. destruct sep as [|a sep']; [congruence|].
  cbn [app split_aux].
  replace (startswith (a :: sep') (a :: sep' ++ s)) with true
    by (symmetry; apply startswith_true; now exists s).
  f_equal. replace (length (a :: sep') - 1) with (length sep') by (simpl; lia). apply split_aux_skip.
Qed.

Lemma split_aux_step sep cur c rest :
  startswith sep (c :: rest) = false ->
  split_aux sep 0 cur (c :: rest) = split_aux sep 0 (c :: cur) rest.
Proof. intros H. cbn [split_aux]. now rewrite H. Qed.

Lemma split_aux_not_nil sep s : forall k cur, split_aux sep k cur s <> [].
Proof.
  induction s as [|c rest IH]; intros k cur; simpl; [discriminate|].
  destruct k; [|apply IH].
  destruct (startswith sep (c :: rest)); [discriminate | apply IH].
Qed.

(** The three cases of a scan that is not inside a separator. *)
Lemma split_aux_cases sep s :
  sep <> [] ->
  s = []
  \/ (exists s', s = sep ++ s' /\ length s' < length s)
  \/ (exists c rest, s = c :: rest /\ startswith sep s = false).
Proof.
  intros Hsep. destruct s as [|c rest]; [now left | right].
  destruct (startswith sep (c :: rest)) eqn:H.
  - left. apply startswith_true in H as [s' E]. exists s'. split; [exact E|].
    rewrite E, length_app. destruct sep; [congruence | simpl; lia].
  - right. now exists c, rest.
Qed.

(** Joining the pieces with the separator gives the string back. *)
Lemma split_aux_join sep n :
  sep <> [] ->
  forall s cur,
    length s <= n -> join sep (split_aux sep 0 cur s) = rev cur ++ s.
Proof.
  intros Hsep. induction n as [|n IH]; intros s cur Hn.
  - destruct s; [|simpl in Hn; lia]. simpl. now rewrite app_nil_r.
  - destruct (split_aux_cases sep s Hsep) as [-> | [(s' & -> & Hlt) | (c & rest & -> & Hno)]].
    + simpl. now rewrite app_nil_r.
    + rewrite split_aux_cut by exact Hsep.
      assert (E : join sep (split_aux sep 0 [] s') = s')
        by (apply (IH s' []); lia).
      destruct (split_aux sep 0 [] s') as [|p ps] eqn:Ep.
      * now apply split_aux_not_nil in Ep.
      * change (join sep (rev cur :: p :: ps))
          with (rev cur ++ sep ++ join sep (p :: ps)).
        now rewrite E.
    + rewrite split_aux_step by exact Hno.
      rewrite (IH rest (c :: cur)) by (simpl in Hn; lia).
      simpl. now rewrite <- app_assoc.
Qed.

Lemma split_join sep s : sep <> [] -> join sep (split sep s) = s.
Proof. intros Hsep. apply (split_aux_join sep (length s) Hsep). lia. Qed.

(** No piece holds the separator. *)
Lemma split_aux_no_sep sep n :
  sep <> [] ->
  forall s cur,
    length s <= n ->
    (forall pre post, rev cur = pre ++ post -> post <> [] ->
                      startswith sep (post ++ s) = false) ->
    Forall (fun p => ~ occurs_in sep p) (split_aux sep 0 cur s).
Proof.
  intros Hsep.
  assert (Hend : forall cur s,
             (forall pre post, rev cur = pre ++ post -> post <> [] ->
                               startswith sep (post ++ s) = false) ->
             ~ occurs_in sep (rev cur)).
  { intros cur s Hinv (pre & post & E).
    specialize (Hinv pre (sep ++ post) E).
    rewrite <- app_assoc in Hinv.
    assert (startswith sep (sep ++ post ++ s) = true)
      by (apply startswith_true; eauto).
    destruct sep; [congruence|]. specialize (Hinv ltac:(discriminate)).
    congruence. }
  induction n as [|n IH]; intros s cur Hn Hinv.
  - destruct s; [|simpl in Hn; lia]. simpl. constructor; [|constructor].
    now apply (Hend cur []).
  - destruct (split_aux_cases sep s Hsep) as [-> | [(s' & -> & Hlt) | (c & rest & -> & Hno)]].
    + simpl. constructor; [|constructor]. now apply (Hend cur []).
    + rewrite split_aux_cut by exact Hsep. constructor; [now apply (Hend cur (sep ++ s'))|].
      apply IH; [lia|]. intros pre post E. destruct pre; discriminate E || idtac.
      simpl in E. subst post. congruence.
    + rewrite split_aux_step by exact Hno. apply IH; [simpl in Hn; lia|].
      intros pre post E Hpost. simpl in E.
      destruct (exists_last Hpost) as (post0 & x & ->).
      rewrite app_assoc in E. apply app_inj_tail in E as [E ->].
      rewrite <- app_assoc. simpl.
      destruct post0 as [|y post0]; [exact Hno|].
      apply (Hinv pre (y :: post0) E). discriminate.
Qed.

Lemma split_no_sep sep s :
  sep <> [] -> Forall (fun p => ~ occurs_in sep p) (split sep s).
Proof.
  intros Hsep. apply (split_aux_no_sep sep (length s) Hsep); [lia|].
  intros pre post E. destruct pre, post; try discriminate E. congruence.
Qed.



Lemma join_length sep pieces :
  length (concat pieces) <= length (join sep pieces).
Proof.
  induction pieces as [|p [|q ps] IH]; simpl in *;
    rewrite ?app_nil_r, ?length_app in *; lia.
Qed.

Lemma join_covers sep pieces c :
  In c (join sep pieces) -> In c sep \/ exists p, In p pieces /\ In c p.
Proof.
  induction pieces as [|p [|q ps] IH]; simpl; intros Hin.
  - destruct Hin.
  - right. exists p. split; [now left | exact Hin].
  - rewrite !in_app_iff in Hin. destruct Hin as [H | [H | H]].
    + right. exists p. split; [now left | exact H].
    + now left.
    + destruct (IH H) as [H' | (p' & Hp & Hc)]; [now left | right].
      exists p'. simpl in *. tauto.
Qed.

Lemma join_occurs sep pieces p :
  In p pieces -> occurs_in p (join sep pieces).
Proof.
  induction pieces as [|q [|q' ps] IH]; simpl; intros Hin.
  - destruct Hin.
  - destruct Hin as [<- | []]. apply occurs_in_refl.
  - destruct Hin as [<- | Hin].
    + exists [], (sep ++ join sep (q' :: ps)). reflexivity.
    + apply (occurs_in_app_l p q), (occurs_in_app_l p sep), IH, Hin.
Qed.

(** ** Segments *)

Lemma truthy_strip p :
  truthy (strip p) = negb (forallb isspace p).
Proof.
  destruct (forallb isspace p) eqn:H; simpl.
  - pose proof (proj1 (List.forallb_forall isspace p) H) as Hall.
    assert (E : strip p = []).
    { apply strip_blank, Forall_forall. intros c Hc.
      apply Hall, list_elem_of_In, Hc. }
    now rewrite E.
  - apply truthy_true. intros E. apply strip_blank in E.
    assert (forallb isspace p = true); [|congruence].
    apply (proj2 (List.forallb_forall isspace p)). intros c Hc.
    rewrite Forall_forall in E. apply E, list_elem_of_In, Hc.
Qed.

Lemma strip_trimmed p : strip p <> [] -> trimmed (strip p).
Proof.
  intros Hne. destruct (strip_spec p) as (l & r & _ & _ & _ & Hh & Hl).
  repeat split; assumption.
Qed.

(** The segments that survive the filter: trimmed pieces. *)
Lemma in_segments pieces s :
  In s (List.map strip (List.filter (fun p => truthy (strip p)) pieces)) <->
  exists p, In p pieces /\ s = strip p /\ s <> [].
Proof.
  rewrite in_map_iff. split.
  - intros (p & <- & Hp). apply List.filter_In in Hp as [Hp Ht].
    exists p. repeat split; [exact Hp|]. now apply truthy_true.
  - intros (p & Hp & -> & Hne). exists p. split; [reflexivity|].
    apply List.filter_In. split; [exact Hp|]. now apply truthy_true.
Qed.

Lemma segments_length pieces :
  length (List.map strip (List.filter (fun p => truthy (strip p)) pieces))
  <= length (concat pieces).
Proof.
  rewrite length_map.
  induction pieces as [|p pieces IH]; simpl; [lia|].
  rewrite length_app. destruct (truthy (strip p)) eqn:Hp; simpl; [|lia].
  assert (0 < length p); [|lia].
  destruct p; [discriminate Hp | simpl; lia].
Qed.

Lemma sentence_in text s :
  In s (sentence_list text) ->
  trimmed s
  /\ Forall (fun c => in_class SENTENCE_ENDINGS c = false) s
  /\ occurs_in s text.
Proof.
  unfold sentence_list. cbv zeta. rewrite in_segments.
  intros (p & Hp & -> & Hne).
  pose proof (re_split_aux_pieces (in_class SENTENCE_ENDINGS) text []
                ltac:(constructor)) as Hall.
  rewrite Forall_forall in Hall.
  destruct (Hall p) as [Hfree Hocc]; [now apply list_elem_of_In|].
  split; [now apply strip_trimmed|]. split.
  - destruct (strip_spec p) as (l & r & E & _).
    rewrite E in Hfree. apply Forall_app in Hfree as [_ Hfree].
    now apply Forall_app in Hfree as [Hfree _].
  - exact (occurs_in_trans _ _ _ (strip_occurs p) Hocc).
Qed.

Lemma sentence_list_nil text :
  sentence_list text = [] <->
  Forall (fun c => isspace c = true \/ in_class SENTENCE_ENDINGS c = true) text.
Proof.
  split.
  - intros E. apply Forall_forall. intros c Hc. apply list_elem_of_In in Hc.
    destruct (re_split_aux_covers (in_class SENTENCE_ENDINGS) text [] c Hc)
      as [H | (p & Hp & Hcp)]; [now right | left].
    destruct (isspace c) eqn:Hs; [reflexivity | exfalso].
    assert (Hin : In (strip p) (sentence_list text)).
    { unfold sentence_list. cbv zeta. apply in_segments. exists p.
      split; [exact Hp|]. split; [reflexivity|].
      intros Eb. apply strip_blank in Eb. rewrite Forall_forall in Eb.
      apply list_elem_of_In in Hcp. specialize (Eb c Hcp). simpl in Eb.
      congruence. }
    rewrite E in Hin. destruct Hin.
  - intros Hall. destruct (sentence_list text) as [|s l] eqn:E; [reflexivity|].
    exfalso. destruct (sentence_in text s) as ((Hne & Hh & _) & Hfree & Hocc);
      [rewrite E; now left|].
    destruct s as [|c s]; [congruence|].
    assert (Hws : isspace c = false) by now apply Hh.
    apply Forall_cons in Hfree as [Hc _].
    destruct Hocc as (pre & post & ->).
    apply Forall_app in Hall as [_ Hall]. apply Forall_cons in Hall as [[H|H] _];
      congruence.
Qed.

Lemma sentence_list_length text :
  length (sentence_list text) <= length text.
Proof.
  unfold sentence_list. cbv zeta.
  etransitivity; [apply segments_length|].
  pose proof (re_split_aux_length (in_class SENTENCE_ENDINGS) text []).
  simpl in *. exact H.
Qed.

Lemma newlines_not_empty : [10%N; 10%N] <> [].
Proof. discriminate. Qed.

Lemma paragraph_list_length text :
  length (paragraph_list text) <= length text.
Proof.
  unfold paragraph_list. etransitivity; [apply segments_length|].
  rewrite <- (split_join [10; 10]%N text newlines_not_empty) at 2.
  apply join_length.
Qed.

Lemma paragraph_list_nil text :
  paragraph_list text = [] <-> Forall (fun c => isspace c = true) text.
Proof.
  pose proof (split_join [10; 10]%N text newlines_not_empty) as Hj.
  split.
  - intros E. apply Forall_forall. intros c Hc. apply list_elem_of_In in Hc.
    rewrite <- Hj in Hc.
    destruct (join_covers _ _ _ Hc) as [[<- | [<- | []]] | (p & Hp & Hcp)];
      [reflexivity | reflexivity |].
    destruct (isspace c) eqn:Hs; [reflexivity | exfalso].
    assert (Hin : In (strip p) (paragraph_list text)).
    { apply in_segments. exists p. split; [exact Hp|]. split; [reflexivity|].
      intros Eb. apply strip_blank in Eb. rewrite Forall_forall in Eb.
      apply list_elem_of_In in Hcp. specialize (Eb c Hcp). simpl in Eb.
      congruence. }
    rewrite E in Hin. destruct Hin.
  - intros Hall. destruct (paragraph_list text) as [|s l] eqn:E; [reflexivity|].
    exfalso. assert (Hin : In s (paragraph_list text)) by (rewrite E; now left).
    apply in_segments in Hin as (p & Hp & -> & Hne).
    apply Hne, strip_blank.
    apply (join_occurs [10; 10]%N) in Hp. rewrite Hj in Hp.
    destruct Hp as (pre & post & ->).
    apply Forall_app in Hall as [_ Hall]. now apply Forall_app in Hall as [Hall _].
Qed.

Lemma runs_aux_length cls n s :
  1 <= n ->
  forall cur,
    length (runs_aux cls n cur s)
    <= length s + (if nonempty cur then 1 else 0).
Proof.
  intros Hn. induction s as [|c rest IH]; intros cur; simpl.
  - unfold emit. destruct cur; simpl.
    + destruct n; [lia | simpl; lia].
    + destruct (_ <=? _)%nat; simpl; lia.
  - destruct (cls c).
    + specialize (IH (c :: cur)). simpl in IH. lia.
    + rewrite length_app. specialize (IH []). simpl in IH.
      unfold emit. destruct cur; simpl.
      * destruct n; [lia | simpl; lia].
      * destruct (_ <=? _)%nat; simpl; lia.
Qed.

Lemma word_list_length isalnum text :
  length (word_list isalnum text) <= length text.
Proof.
  unfold word_list, runs.
  pose proof (runs_aux_length (isword isalnum) 1 text ltac:(lia) []) as H.
  simpl in H. lia.
Qed.

Lemma runs_aux_nil cls s :
  forall cur,
    runs_aux cls 1 cur s = [] <->
    cur = [] /\ Forall (fun c => cls c = false) s.
Proof.
  induction s as [|c rest IH]; intros cur; simpl.
  - unfold emit. destruct cur; simpl.
    + split; [intros _; split; [reflexivity | constructor] | reflexivity].
    + split; [discriminate | intros [H _]; discriminate H].
  - destruct (cls c) eqn:Hc.
    + rewrite IH. split; [intros [H _]; discriminate H|].
      intros [_ H]. apply Forall_cons in H as [H _]. congruence.
    + unfold emit. destruct cur; simpl.
      * rewrite IH. split.
        -- intros [_ H]. split; [reflexivity | now constructor].
        -- intros [_ H]. apply Forall_cons in H as [_ H]. now split.
      * split; [discriminate | intros [H _]; discriminate H].
Qed.

Lemma word_list_nil isalnum text :
  word_list isalnum text = [] <->
  Forall (fun c => isword isalnum c = false) text.
Proof.
  unfold word_list, runs. rewrite runs_aux_nil. tauto.
Qed.

(** ** Adjacent white space *)

Lemma span_prefix (cls : codepoint -> bool) s :
  exists l r, s = l ++ r /\ Forall (fun c => cls c = true) l
              /\ (forall c, head r = Some c -> cls c = false).
Proof.
  induction s as [|c s (l & r & -> & Hl & Hr)].
  - exists [], []. repeat split; [constructor | discriminate].
  - destruct (cls c) eqn:Hc.
    + exists (c :: l), r. repeat split; [now constructor | exact Hr].
    + exists [], (c :: l ++ r). repeat split; [constructor|].
      now intros c' [= <-].
Qed.

Lemma span_suffix (cls : codepoint -> bool) s :
  exists l r, s = l ++ r /\ Forall (fun c => cls c = true) r
              /\ (forall c, last l = Some c -> cls c = false).
Proof.
  destruct (span_prefix cls (rev s)) as (l & r & E & Hl & Hr).
  exists (rev r), (rev l). split; [|split].
  - rewrite <- rev_app_distr, <- E. now rewrite rev_involutive.
  - now apply Forall_rev.
  - intros c. rewrite last_rev. apply Hr.
Qed.

(** A scan for runs of two or more finds something exactly when two
    code points of the class stand side by side. *)
Lemma runs_two_not_nil cls text :
  runs cls 2 text <> [] <->
  exists pre a b post,
    text = pre ++ a :: b :: post /\ cls a = true /\ cls b = true.
Proof.
  destruct (runs_reported cls 2 ltac:(lia) text) as (occs & E & Hiff & _).
  rewrite E. split.
  - destruct occs as [|[[p r] q] occs];
      [intros H; exfalso; now apply H | intros _].
    destruct (proj1 (Hiff p r q) ltac:(now left)) as [[Ho _ Hall _ _] Hlen].
    destruct r as [|a [|b r]]; try (simpl in Hlen; lia).
    exists p, a, b, (r ++ q). split; [exact Ho|].
    apply Forall_cons in Hall as [Ha Hall].
    apply Forall_cons in Hall as [Hb _]. now split.
  - intros (pre & a & b & post & -> & Ha & Hb).
    destruct (span_suffix cls pre) as (l1 & r1 & -> & Hr1 & Hl1).
    destruct (span_prefix cls post) as (l2 & r2 & -> & Hl2 & Hr2).
    assert (Hin : In (l1, r1 ++ a :: b :: l2, r2) occs).
    { apply Hiff. split; [|rewrite length_app; simpl; lia].
      split.
      - rewrite <- !app_assoc. reflexivity.
      - destruct r1; discriminate.
      - apply Forall_app. split; [exact Hr1|]. now repeat constructor.
      - exact Hl1.
      - exact Hr2. }
    destruct occs; [destruct Hin | discriminate].
Qed.

Lemma alerts_of_not_nil text :
  alerts_of text <> [] <->
  exists sub alert, In (sub, alert) CHECKS /\ occurs_in sub text.
Proof.
  split.
  - intros Hne.
    destruct (alerts_of text) as [|a l] eqn:E; [congruence|].
    assert (Hin : In a (alerts_of text)) by (rewrite E; now left).
    unfold alerts_of in Hin. apply in_concat in Hin as (x & Hx & Hax).
    apply in_map_iff in Hx as ([sub alert] & <- & Hc). simpl in Hax.
    destruct (contains sub text) eqn:Hs; [|destruct Hax].
    exists sub, alert. split; [exact Hc | now apply contains_true].
  - intros (sub & alert & Hin & Hocc) E.
    pose proof (alerts_of_occurrences text sub alert Hin) as Hn.
    apply contains_true in Hocc. rewrite Hocc, E in Hn. discriminate Hn.
Qed.

Lemma filter_not_nil {A} (f : A -> bool) (l : list A) :
  List.filter f l <> [] <-> exists x, In x l /\ f x = true.
Proof.
  split.
  - destruct (List.filter f l) as [|x l'] eqn:E; [congruence | intros _].
    exists x. apply List.filter_In. rewrite E. now left.
  - intros (x & Hx) E. apply List.filter_In in Hx. rewrite E in Hx.
    destruct Hx.
Qed.

Lemma re_split_aux_free cls s :
  Forall (fun c => cls c = false) s ->
  forall cur, re_split_aux cls cur s = [rev cur ++ s].
Proof.
  induction 1 as [|c s Hc _ IH]; intros cur; simpl.
  - now rewrite app_nil_r.
  - rewrite Hc, IH. simpl. now rewrite <- app_assoc.
Qed.

Lemma round_float_is_float f ndigits :
  exists g, round (PyFloat f) ndigits = PyFloat g.
Proof.
  destruct f; simpl; eauto.
  destruct (_ =? _)%Z; eauto.
Qed.

Lemma average_is_zero n k : average n k = PyInt 0 <-> k = 0%Z.
Proof.
  unfold average. destruct (Z.eqb_spec k 0) as [->|Hk]; [tauto|].
  destruct (round_float_is_float (nearest_quotient n k) 2) as [g ->].
  split; [discriminate | contradiction].
Qed.

Lemma len_zero {A} (l : list A) : len l = 0%Z <-> l = [].
Proof. unfold len. destruct l; simpl; split; (congruence || lia). Qed.

(** ** Cutting, trimming and counting are determined *)

Lemma re_split_aux_cut cls s :
  forall cur,
    Forall (fun c => cls c = false) cur ->
    cut_at cls (rev cur ++ s) (re_split_aux cls cur s).
Proof.
  induction s as [|c rest IH]; intros cur Hcur; simpl.
  - rewrite app_nil_r. constructor. now apply Forall_rev.
  - destruct (cls c) eqn:Hc.
    + constructor; [now apply Forall_rev | exact Hc |].
      apply (IH []). constructor.
    + specialize (IH (c :: cur)). simpl in IH.
      rewrite <- app_assoc in IH. apply IH. now constructor.
Qed.

Lemma re_split_cut cls s : cut_at cls s (re_split cls s).
Proof. apply (re_split_aux_cut cls s []). constructor. Qed.

Lemma first_of_class (cls : codepoint -> bool) p c r p' c' r' :
  Forall (fun c => cls c = false) p -> Forall (fun c => cls c = false) p' ->
  cls c = true -> cls c' = true ->
  p ++ c :: r = p' ++ c' :: r' -> p = p' /\ c = c' /\ r = r'.
Proof.
  intros Hp. revert p'.
  induction Hp as [|x p Hx Hp IH]; intros p' Hp' Hc Hc' E.
  - destruct Hp' as [|y p' Hy Hp']; simpl in E.
    + now injection E as -> ->.
    + injection E as -> _. congruence.
  - destruct Hp' as [|y p' Hy Hp']; simpl in E.
    + injection E as -> _. congruence.
    + injection E as -> E. destruct (IH p' Hp' Hc Hc' E) as (-> & -> & ->).
      auto.
Qed.

Lemma cut_at_unique cls t pieces1 pieces2 :
  cut_at cls t pieces1 -> cut_at cls t pieces2 -> pieces1 = pieces2.
Proof.
  intros H1. revert pieces2.
  induction H1 as [p Hp | p c rest pieces Hp Hc H1 IH]; intros pieces2 H2.
  - inversion H2 as [p' Hp' | p' c' rest' pieces' Hp' Hc' H' E]; subst;
      [reflexivity|].
    rewrite Forall_app, Forall_cons in Hp. destruct Hp as (_ & Hx & _).
    congruence.
  - inversion H2 as [p' Hp' E | p' c' rest' pieces' Hp' Hc' H' E]; subst.
    + rewrite Forall_app, Forall_cons in Hp'. destruct Hp' as (_ & Hx & _).
      congruence.
    + destruct (first_of_class cls _ _ _ _ _ _ Hp' Hp Hc' Hc E)
        as (-> & -> & ->).
      f_equal. now apply IH.
Qed.

Lemma strip_trimmed_of p : trimmed_of p (strip p).
Proof.
  destruct (strip_spec p) as (l & r & E & Hl & Hr & Hh & Hla).
  now exists l, r.
Qed.

Lemma blank_head (s r : str) :
  Forall (fun c => isspace c = true) (s ++ r) ->
  (forall c, head s = Some c -> isspace c = false) -> s = [].
Proof.
  intros Hall Hh. destruct s as [|c s]; [reflexivity|].
  simpl in Hall. apply Forall_cons in Hall as [Hc _].
  specialize (Hh c eq_refl). congruence.
Qed.

Lemma trimmed_of_unique p s1 s2 :
  trimmed_of p s1 -> trimmed_of p s2 -> s1 = s2.
Proof.
  assert (Hstep : forall l1 s1 r1 l2 s2 r2 k,
             l2 = l1 ++ k -> s1 ++ r1 = k ++ s2 ++ r2 ->
             Forall (fun c => isspace c = true) l2 ->
             Forall (fun c => isspace c = true) r1 ->
             Forall (fun c => isspace c = true) r2 ->
             (forall c, head s1 = Some c -> isspace c = false) ->
             (forall c, last s1 = Some c -> isspace c = false) ->
             (forall c, head s2 = Some c -> isspace c = false) ->
             (forall c, last s2 = Some c -> isspace c = false) ->
             s1 = s2).
  { clear s1 s2. intros l1 s1 r1 l2 s2 r2 k -> E Hl2 Hr1 Hr2 Hh1 Hl1 Hh2 Hla2.
    apply Forall_app in Hl2 as [_ Hk].
    destruct k as [|x k].
    - simpl in E. apply app_eq_app in E as [m [[-> ->] | [-> ->]]].
      + destruct m as [|y m _] using rev_ind; [now rewrite app_nil_r|].
        apply Forall_app in Hr2 as [Hm _].
        apply Forall_app in Hm as [_ Hy]. apply Forall_cons in Hy as [Hy _].
        specialize (Hl1 y). rewrite app_assoc, last_snoc in Hl1.
        specialize (Hl1 eq_refl). congruence.
      + destruct m as [|y m _] using rev_ind; [now rewrite app_nil_r|].
        apply Forall_app in Hr1 as [Hm _].
        apply Forall_app in Hm as [_ Hy]. apply Forall_cons in Hy as [Hy _].
        specialize (Hla2 y). rewrite app_assoc, last_snoc in Hla2.
        specialize (Hla2 eq_refl). congruence.
    - apply Forall_cons in Hk as [Hx Hk].
      destruct s1 as [|y s1].
      + simpl in E. subst r1. apply Forall_cons in Hr1 as [_ Hr1].
        apply Forall_app in Hr1 as [_ Hr1].
        symmetry. now apply (blank_head s2 r2).
      + simpl in E. injection E as -> _.
        specialize (Hh1 x eq_refl). congruence. }
  intros (l1 & r1 & E1 & Hl1 & Hr1 & Hh1 & Hla1)
         (l2 & r2 & E2 & Hl2 & Hr2 & Hh2 & Hla2).
  rewrite E1 in E2. apply app_eq_app in E2 as [k [[-> E] | [-> E]]].
  - symmetry. now apply (Hstep l2 s2 r2 (l2 ++ k) s1 r1 k).
  - now apply (Hstep l1 s1 r1 (l1 ++ k) s2 r2 k).
Qed.

Lemma StronglySorted_NoDup {A} (f : A -> nat) (l : list A) :
  StronglySorted (fun a b => f a < f b) l -> List.NoDup l.
Proof.
  induction 1 as [|a l Hs IH Ha]; constructor; [|exact IH].
  intros Hin. rewrite List.Forall_forall in Ha. specialize (Ha a Hin). lia.
Qed.

Lemma token_count_unique s n1 n2 :
  token_count s n1 -> token_count s n2 -> n1 = n2.
Proof.
  intros (o1 & <- & H1 & S1) (o2 & <- & H2 & S2).
  apply Permutation.Permutation_length, Permutation.NoDup_Permutation.
  - apply (StronglySorted_NoDup (fun a => length a.1.1)), S1.
  - apply (StronglySorted_NoDup (fun a => length a.1.1)), S2.
  - intros [[pre run] post]. now rewrite H1, H2.
Qed.

Lemma split_ws_count s : token_count s (length (split_ws s)).
Proof.
  destruct (runs_reported (fun c => negb (isspace c)) 1 ltac:(lia) s)
    as (occs & E & Hiff & Hsort).
  exists occs. unfold split_ws. rewrite E, length_map.
  split; [reflexivity|]. split; [|exact Hsort].
  intros pre run post. rewrite Hiff. split; [now intros [H _]|].
  intros H. split; [exact H|].
  destruct H as [_ Hne _ _ _]. destruct run; [congruence | simpl; lia].
Qed.

Lemma long_of_unique pieces long1 long2 :
  long_of pieces long1 -> long_of pieces long2 -> long1 = long2.
Proof.
  intros H1. revert long2.
  induction H1 as [|p s n pieces long Ht Hc Hn H1 IH
                    |p s n pieces long Ht Hc Hn H1 IH];
    intros long2 H2; inversion H2 as [|p' s' n' ? ? Ht' Hc' Hn' H'
                                       |p' s' n' ? ? Ht' Hc' Hn' H']; subst;
    try reflexivity;
    pose proof (trimmed_of_unique _ _ _ Ht Ht'); subst s';
    pose proof (token_count_unique _ _ _ Hc Hc'); subst n';
    try lia; [f_equal|]; now apply IH.
Qed.

Lemma long_of_filter pieces :
  long_of pieces
    (List.filter (fun s => (30 <? len (split_ws s))%Z)
       (List.map strip (List.filter (fun p => truthy (strip p)) pieces))).
Proof.
  induction pieces as [|p pieces IH]; simpl; [constructor|].
  destruct (truthy (strip p)) eqn:Hp; simpl.
  - destruct (30 <? len (split_ws (strip p)))%Z eqn:Hn.
    + apply (long_keep p (strip p) (length (split_ws (strip p))));
        [apply strip_trimmed_of | apply split_ws_count | | exact IH].
      apply Z.ltb_lt in Hn. unfold len in Hn. lia.
    + apply (long_skip p (strip p) (length (split_ws (strip p))));
        [apply strip_trimmed_of | apply split_ws_count | | exact IH].
      apply Z.ltb_ge in Hn. unfold len in Hn. lia.
  - apply (long_skip p (strip p) (length (split_ws (strip p))));
      [apply strip_trimmed_of | apply split_ws_count | | exact IH].
    destruct (strip p); [simpl; lia | discriminate Hp].
Qed.

(** ** The report as a string *)

Lemma no_line_feed_b s : existsb (N.eqb 10%N) s = false -> no_line_feed s.
Proof.
  intros H Hin. assert (existsb (N.eqb 10%N) s = true); [|congruence].
  apply existsb_exists. exists 10%N. split; [exact Hin | apply N.eqb_refl].
Qed.

Lemma no_line_feed_all (lines : list str) :
  forallb (fun l => negb (existsb (N.eqb 10%N) l)) lines = true ->
  Forall no_line_feed lines.
Proof.
  intros H. apply Forall_forall. intros l Hl.
  apply no_line_feed_b, negb_true_iff.
  exact (proj1 (List.forallb_forall _ lines) H l (proj1 (list_elem_of_In _ _) Hl)).
Qed.

Lemma no_line_feed_app a b :
  no_line_feed a -> no_line_feed b -> no_line_feed (a ++ b).
Proof. unfold no_line_feed. rewrite in_app_iff. tauto. Qed.

Lemma uint_no_line_feed d : no_line_feed (lit (NilEmpty.string_of_uint d)).
Proof.
  induction d; cbn; unfold no_line_feed in *; cbn; try tauto;
    intros [H|H]; try discriminate H; contradiction.
Qed.

Lemma of_int_no_line_feed z : no_line_feed (of_int z).
Proof.
  unfold of_int.
  destruct (Z.to_int z) as [d|d]; cbn [NilZero.string_of_int].
  - unfold NilZero.string_of_uint.
    destruct d; try apply uint_no_line_feed.
    apply no_line_feed_b. reflexivity.
  - change (no_line_feed (45%N :: lit (NilZero.string_of_uint d))).
    intros [H|H]; [discriminate H|]. revert H.
    unfold NilZero.string_of_uint.
    destruct d; try apply uint_no_line_feed.
    apply no_line_feed_b. reflexivity.
Qed.

Lemma number_no_line_feed float_repr x :
  (forall f, no_line_feed (float_repr f)) ->
  no_line_feed (number_str float_repr x).
Proof. intros H. destruct x; [apply of_int_no_line_feed | apply H]. Qed.

(** Lines that end with a line feed each, one after the other, are the
    lines joined by line feeds, with nothing after the last one. *)
Lemma concat_lines (texts : list str) :
  concat (List.map (fun b => b ++ [10%N]) texts) = join [10%N] (texts ++ [[]]).
Proof.
  induction texts as [|b texts IH]; [reflexivity|].
  cbn [List.map concat app]. rewrite IH.
  destruct texts; cbn; now rewrite <- ?app_assoc.
Qed.

Lemma report_lines_texts float_repr metrics :
  report_lines float_repr metrics ++ [[]]
  = List.map (fun b => b ++ [10%N])
      (removelast (report_texts float_repr metrics)) ++ [[]].
Proof.
  f_equal. unfold report_texts. rewrite !app_assoc, removelast_last.
  rewrite report_lines_parts, !List.map_app, <- !app_assoc.
  f_equal; [|f_equal; [|f_equal]].
  - unfold summary_lines, summary_texts. cbn [List.map].
    rewrite <- !app_assoc. reflexivity.
  - unfold long_part, long_texts.
    destruct (long_sentences metrics) as [|s long]; [reflexivity|].
    change (nonempty (s :: long)) with true. cbv iota.
    generalize (s :: long). intros items. cbn [List.map]. f_equal.
    rewrite List.map_app, List.map_map. reflexivity.
  - unfold spaces_part, flag_texts.
    now destruct (repeated_spaces metrics).
  - unfold alerts_part, alerts_texts.
    destruct (typography_alerts metrics) as [|a alerts]; [reflexivity|].
    change (nonempty (a :: alerts)) with true. cbv iota.
    generalize (a :: alerts). intros items. cbn [List.map]. f_equal.
    rewrite List.map_map. reflexivity.
Qed.

(** The report is its lines joined by line feeds. *)
Lemma format_metrics_texts float_repr metrics :
  format_metrics float_repr metrics
  = join [10%N] (report_texts float_repr metrics).
Proof.
  unfold format_metrics.
  pose proof (report_lines_texts float_repr metrics) as E.
  apply app_inj_tail in E as [E _]. rewrite E, concat_lines.
  f_equal. unfold report_texts. now rewrite !app_assoc, removelast_last.
Qed.

Lemma bullet_texts_one_line items :
  Forall no_line_feed items ->
  Forall no_line_feed (List.map bullet_text items).
Proof.
  intros H. apply Forall_forall. intros l Hl.
  apply list_elem_of_In, in_map_iff in Hl as (s & <- & Hs).
  rewrite Forall_forall in H.
  apply no_line_feed_app; [apply no_line_feed_b; reflexivity|].
  apply H, list_elem_of_In, Hs.
Qed.

Lemma report_texts_one_line float_repr metrics :
  (forall f, no_line_feed (float_repr f)) ->
  Forall no_line_feed (long_sentences metrics) ->
  Forall no_line_feed (typography_alerts metrics) ->
  Forall no_line_feed (report_texts float_repr metrics).
Proof.
  intros Hrepr Hlong Halerts. unfold report_texts.
  assert (Hc : forall s, existsb (N.eqb 10%N) s = false -> no_line_feed s)
    by exact no_line_feed_b.
  repeat apply Forall_app_2.
  - unfold summary_texts.
    repeat (apply Forall_cons_2;
            [repeat apply no_line_feed_app;
             first [ apply of_int_no_line_feed
                   | now apply number_no_line_feed
                   | apply Hc; reflexivity ] |]).
    constructor.
  - unfold long_texts. destruct (long_sentences metrics) eqn:E;
      [constructor|]. rewrite <- E in *.
    apply Forall_cons_2; [apply Hc; reflexivity|].
    apply Forall_app_2; [now apply bullet_texts_one_line|].
    repeat constructor. intros [].
  - unfold flag_texts. destruct (repeated_spaces metrics); repeat constructor.
    apply Hc. reflexivity.
  - unfold alerts_texts. destruct (typography_alerts metrics) eqn:E;
      [constructor|]. rewrite <- E in *.
    apply Forall_cons_2; [apply Hc; reflexivity|].
    now apply bullet_texts_one_line.
  - repeat constructor. intros [].
Qed.

Lemma summary_texts_plain float_repr metrics :
  Forall plain_text (summary_texts float_repr metrics).
Proof.
  unfold summary_texts.
  repeat (apply Forall_cons_2; [simpl; auto|]). constructor.
Qed.

Lemma bullet_texts_plain items : Forall plain_text (List.map bullet_text items).
Proof.
  induction items; simpl; constructor; [simpl; auto | assumption].
Qed.

Lemma texts_not_plain :
  ~ plain_text LONG_TEXT /\ ~ plain_text FLAG_TEXT /\ ~ plain_text ALERTS_TEXT.
Proof. repeat split; simpl; intros [H|H]; discriminate H. Qed.

Lemma not_plain_not_in header (lines : list str) :
  ~ plain_text header -> Forall plain_text lines -> ~ In header lines.
Proof.
  intros Hh Hall Hin. rewrite Forall_forall in Hall.
  apply Hh, Hall, list_elem_of_In, Hin.
Qed.

Lemma in_long_texts header metrics :
  In header (long_texts metrics) ->
  header = LONG_TEXT
  \/ In header (List.map bullet_text (long_sentences metrics))
  \/ header = [].
Proof.
  unfold long_texts. destruct (long_sentences metrics) eqn:E; [intros []|].
  rewrite <- E. intros [H|H]; [now left|].
  apply in_app_iff in H as [H | [H | []]]; auto.
Qed.

Lemma in_flag_texts header metrics :
  In header (flag_texts metrics) -> header = FLAG_TEXT.
Proof.
  unfold flag_texts. destruct (repeated_spaces metrics); [intros []|].
  now intros [H | []].
Qed.

Lemma in_alerts_texts header metrics :
  In header (alerts_texts metrics) ->
  header = ALERTS_TEXT
  \/ In header (List.map bullet_text (typography_alerts metrics)).
Proof.
  unfold alerts_texts. destruct (typography_alerts metrics) eqn:E;
    [intros []|].
  rewrite <- E. intros [H|H]; auto.
Qed.

(** Which lines of the report are no lines of the summary or of a
    list. *)
Lemma in_report_texts float_repr metrics header :
  ~ plain_text header ->
  In header (report_texts float_repr metrics) <->
  (header = LONG_TEXT /\ long_sentences metrics <> []) \/
  (header = FLAG_TEXT /\ repeated_spaces metrics <> []) \/
  (header = ALERTS_TEXT /\ typography_alerts metrics <> []).
Proof.
  intros Hh. unfold report_texts. rewrite !in_app_iff.
  pose proof (not_plain_not_in header _ Hh
                (summary_texts_plain float_repr metrics)) as Hs.
  assert (Hb : forall items, ~ In header (List.map bullet_text items))
    by (intros items; apply (not_plain_not_in header _ Hh
                               (bullet_texts_plain items))).
  assert (Hnil : header <> []) by (intros ->; apply Hh; exact I).
  pose proof (Hb (long_sentences metrics)) as Hb1.
  pose proof (Hb (typography_alerts metrics)) as Hb2.
  unfold long_texts, flag_texts, alerts_texts. revert Hb1 Hb2.
  destruct (long_sentences metrics) as [|s1 long],
    (repeated_spaces metrics) as [|r1 runs],
    (typography_alerts metrics) as [|a1 alerts];
    intros Hb1 Hb2; cbn [In]; rewrite ?in_app_iff; cbn [In];
    intuition congruence.
Qed.

(** A string has one list of lines only. *)
Lemma lines_unique (lines1 lines2 : list str) :
  lines1 <> [] -> lines2 <> [] ->
  Forall no_line_feed lines1 -> Forall no_line_feed lines2 ->
  join [10%N] lines1 = join [10%N] lines2 -> lines1 = lines2.
Proof.
  assert (Hfree : forall l : str,
             no_line_feed l -> Forall (fun c => N.eqb c 10%N = false) l).
  { intros l Hl. apply Forall_forall. intros c Hc.
    apply N.eqb_neq. intros ->. apply Hl, list_elem_of_In, Hc. }
  revert lines2.
  induction lines1 as [|a [|a' rest1] IH];
    intros [|b [|b' rest2]] Hne1 Hne2 H1 H2 E; cbn [join] in E;
    try congruence.
  - subst a. apply Forall_cons in H1 as [H1 _].
    exfalso. apply H1, in_app_iff. right. left. reflexivity.
  - subst b. apply Forall_cons in H2 as [H2 _].
    exfalso. apply H2, in_app_iff. right. left. reflexivity.
  - apply Forall_cons in H1 as [Ha H1]. apply Forall_cons in H2 as [Hb H2].
    change (a ++ 10%N :: join [10%N] (a' :: rest1)
            = b ++ 10%N :: join [10%N] (b' :: rest2)) in E.
    apply (first_of_class (fun c => N.eqb c 10%N)) in E
      as (-> & _ & E); [|now apply Hfree..| reflexivity | reflexivity].
    f_equal. apply IH; [discriminate | discriminate | assumption..].
Qed.

Lemma alerts_of_one_line text : Forall no_line_feed (alerts_of text).
Proof.
  unfold alerts_of. cbn [List.map List.concat CHECKS fst snd].
  destruct (contains [32%N; 44%N] text), (contains [32%N; 59%N] text),
    (contains [33%N; 32%N; 33%N] text), (contains [63%N; 32%N; 63%N] text);
    apply no_line_feed_all; vm_compute; reflexivity.
Qed.

(** ** Sentence segmentation *)

Lemma sentence_ending_members c :
  in_class SENTENCE_ENDINGS c = true <->
  c = 46%N \/ c = 1567%N \/ c = 33%N \/ c = 65281%N.
Proof.
  unfold in_class, SENTENCE_ENDINGS. cbn [existsb].
  rewrite !orb_true_iff, !N.eqb_eq. intuition congruence.
Qed.

(** C1: the specification counts a sentence boundary at every ASCII
    question mark, so that "A? B? C?" would have three sentences.  The
    class [SENTENCE_ENDINGS] holds the full stop, the Arabic question
    mark, the exclamation mark (twice) and the full-width exclamation
    mark, and not the ASCII question mark: on "A? B? C?" [analyze_text]
    finds one sentence, the whole text. *)
Theorem ascii_question_mark_is_no_boundary isalnum :
  (forall c, in_class SENTENCE_ENDINGS c = true <->
             c = 46%N \/ c = 1567%N \/ c = 33%N \/ c = 65281%N) /\
  in_class SENTENCE_ENDINGS 63%N = false /\
  sentence_list text_questions = [text_questions] /\
  exists m, analyze_text isalnum text_questions = Ok m /\ sentences m = 1%Z.
Proof.
  split; [exact sentence_ending_members|].
  split; [reflexivity|]. split; [reflexivity|].
  eexists. split; [apply analyze_text_Ok | reflexivity].
Qed.

(** C2: [analyze_text] on "One. Two! Three?" returns metrics with three
    sentences (the third keeps its question mark). *)
Theorem one_two_three_has_three_sentences isalnum :
  exists m, analyze_text isalnum text_one_two_three = Ok m /\
            sentences m = 3%Z /\
            sentence_list text_one_two_three
            = [lit "One"; lit "Two"; lit "Three?"].
Proof.
  eexists. split; [apply analyze_text_Ok|]. split; reflexivity.
Qed.

(** ** Averages *)

Lemma float_3_33_hundredths : hundredths_float 333 = float_3_33.
Proof. reflexivity. Qed.

(** The average of [n] words over [k] segments, for counts below
    [2^45]: the float nearest to a decimal [h / 100] that is within half
    a hundredth of the exact quotient [n / k]. *)
Lemma average_exact n k :
  (0 <= n < 2 ^ 45)%Z -> (0 < k < 2 ^ 45)%Z ->
  exists h,
    average n k = PyFloat (hundredths_float h) /\
    (Qabs (inject_Z n / inject_Z k - inject_Z h / inject_Z 100) <= 1 # 200)%Q.
Proof.
  intros Hn Hk. destruct (round_quotient_nearest n k Hn Hk) as (h & E & Hh).
  exists h. unfold average.
  replace (k =? 0)%Z with false by (symmetry; apply Z.eqb_neq; lia).
  split; [exact E|].
  apply (decimal_distance n k h 100); [lia | lia |].
  unfold nearest in Hh. rewrite <- Z.abs_opp.
  replace (- (n * 100 - h * k))%Z with (h * k - 100 * n)%Z by ring.
  exact Hh.
Qed.

Lemma len_nonneg {A} (l : list A) : (0 <= len l)%Z.
Proof. unfold len. lia. Qed.

(** C3: for every text [analyze_text] returns metrics whose average
    sentence length is the integer 0 when there is no sentence, and
    otherwise [round(words / sentences, 2)] on the float quotient, which
    [round] moves by at most half a hundredth; for counts below [2^45]
    this is the float of a decimal [h / 100] within half a hundredth of
    the exact quotient of the word count by the sentence count.  The
    same holds for the average paragraph length with the paragraph
    count.  Ten words in three sentences give the float 3.33. *)
Theorem averages_rounded_to_two_decimals isalnum text :
  exists m, analyze_text isalnum text = Ok m /\
    (sentences m = 0%Z -> average_sentence_length m = PyInt 0) /\
    (sentences m <> 0%Z ->
     exists q, truediv (words m) (sentences m) = Ok (PyFloat q) /\
               average_sentence_length m = round (PyFloat q) 2 /\
               (Qabs (SF2Q q - rounded_decimal 2 q) <= 1 # 200)%Q) /\
    (sentences m <> 0%Z ->
     (words m < 2 ^ 45)%Z -> (sentences m < 2 ^ 45)%Z ->
     exists h, average_sentence_length m = PyFloat (hundredths_float h) /\
               (Qabs (inject_Z (words m) / inject_Z (sentences m)
                      - inject_Z h / inject_Z 100) <= 1 # 200)%Q) /\
    (paragraphs m = 0%Z -> average_paragraph_length m = PyInt 0) /\
    (paragraphs m <> 0%Z ->
     exists q, truediv (words m) (paragraphs m) = Ok (PyFloat q) /\
               average_paragraph_length m = round (PyFloat q) 2 /\
               (Qabs (SF2Q q - rounded_decimal 2 q) <= 1 # 200)%Q) /\
    (paragraphs m <> 0%Z ->
     (words m < 2 ^ 45)%Z -> (paragraphs m < 2 ^ 45)%Z ->
     exists h, average_paragraph_length m = PyFloat (hundredths_float h) /\
               (Qabs (inject_Z (words m) / inject_Z (paragraphs m)
                      - inject_Z h / inject_Z 100) <= 1 # 200)%Q) /\
    (words m = 10%Z -> sentences m = 3%Z ->
     average_sentence_length m = PyFloat float_3_33).
Proof.
  eexists. split; [apply analyze_text_Ok|].
  cbn [words sentences paragraphs average_sentence_length
         average_paragraph_length].
  pose proof (len_nonneg (word_list isalnum text)) as Hw.
  pose proof (len_nonneg (sentence_list text)) as Hs.
  pose proof (len_nonneg (paragraph_list text)) as Hp.
  set (w := len (word_list isalnum text)) in *.
  assert (Hzero : forall k, k = 0%Z -> average w k = PyInt 0)
    by (intros k ->; reflexivity).
  assert (Hdiv : forall k, k <> 0%Z ->
            exists q, truediv w k = Ok (PyFloat q) /\
                      average w k = round (PyFloat q) 2 /\
                      (Qabs (SF2Q q - rounded_decimal 2 q) <= 1 # 200)%Q).
  { intros k Hk. exists (nearest_quotient w k). unfold truediv, average.
    apply Z.eqb_neq in Hk. rewrite Hk.
    repeat split. apply rounded_hundredths_near. }
  split; [auto|]. split; [auto|].
  split; [intros; apply average_exact; lia|].
  split; [auto|]. split; [auto|].
  split; [intros; apply average_exact; lia|].
  intros -> ->. reflexivity.
Qed.

Lemma averages_rounded_to_two_decimals_witness :
  exists m, analyze_text ascii_alnum text_ten_in_three = Ok m /\
            average_sentence_length m = PyFloat float_3_33.
Proof.
  destruct (averages_rounded_to_two_decimals ascii_alnum text_ten_in_three)
    as (m & E & _ & _ & _ & _ & _ & _ & H).
  exists m. split; [exact E|].
  rewrite analyze_text_Ok in E. injection E as <-.
  apply H; reflexivity.
Defined.

(** ** Totality *)

(** C4: on the empty string [analyze_text] returns zero counts, the
    integer 0 for both averages and three empty lists; and on every
    string it returns metrics, never an exception. *)
Theorem analyze_empty_and_never_fails isalnum :
  analyze_text isalnum [] =
  Ok {| words := 0; sentences := 0; paragraphs := 0;
        average_sentence_length := PyInt 0;
        average_paragraph_length := PyInt 0;
        long_sentences := []; repeated_spaces := [];
        typography_alerts := [] |}
  /\ (forall text, exists m, analyze_text isalnum text = Ok m)
  /\ (forall text e, analyze_text isalnum text <> Raise e).
Proof.
  split; [reflexivity|]. split; intros text.
  - eexists. apply analyze_text_Ok.
  - intros e. rewrite analyze_text_Ok. discriminate.
Qed.

(** ** Long sentences *)

Lemma sentence_of_tokens k : Forall token (List.repeat [119%N] k).
Proof.
  apply Forall_forall. intros w Hin.
  apply list_elem_of_In, repeat_spec in Hin. subst w.
  split; [discriminate | repeat constructor].
Qed.

(** C5: for every text, [long_sentences] is the list of the trimmed
    sentences that have more than 30 tokens, in the order of the
    sentence list.  The text is cut at its sentence endings; of each
    piece the white space at its two ends is taken off; the tokens of
    what is left are its maximal runs of code points that are no white
    space; [long_sentences] holds exactly the trimmed pieces with more
    than 30 of them, and no other list does.  Every entry is trimmed,
    has no sentence ending and occurs in the text.  A sentence of
    exactly 30 tokens separated by spaces is left out and one of 31
    tokens is included. *)
Theorem long_sentences_more_than_thirty_tokens isalnum text :
  exists m, analyze_text isalnum text = Ok m /\
    long_sentences m
    = List.filter (fun s => (30 <? len (split_ws s))%Z) (sentence_list text) /\
    sublist (long_sentences m) (sentence_list text) /\
    (forall s, In s (long_sentences m) <->
               In s (sentence_list text) /\ 30 < length (split_ws s)) /\
    (forall toks, Forall token toks ->
                  In (join_space toks) (sentence_list text) ->
                  (length toks = 30 -> ~ In (join_space toks) (long_sentences m))
                  /\ (length toks = 31 -> In (join_space toks) (long_sentences m))) /\
    (exists pieces,
        cut_at (in_class SENTENCE_ENDINGS) text pieces
        /\ long_of pieces (long_sentences m)) /\
    (forall pieces long,
        cut_at (in_class SENTENCE_ENDINGS) text pieces ->
        long_of pieces long -> long = long_sentences m) /\
    Forall (fun s => trimmed s
                     /\ Forall (fun c => in_class SENTENCE_ENDINGS c = false) s
                     /\ occurs_in s text)
      (long_sentences m).
Proof.
  eexists. split; [apply analyze_text_Ok|]. cbn [long_sentences].
  assert (Hin : forall s,
             In s (List.filter (fun s => (30 <? len (split_ws s))%Z)
                     (sentence_list text)) <->
             In s (sentence_list text) /\ 30 < length (split_ws s)).
  { intros s. rewrite List.filter_In, Z.ltb_lt. unfold len. intuition lia. }
  assert (Hlong : long_of (re_split (in_class SENTENCE_ENDINGS) text)
                    (List.filter (fun s => (30 <? len (split_ws s))%Z)
                       (sentence_list text)))
    by apply long_of_filter.
  split; [reflexivity|]. split; [apply filter_sublist|]. split; [exact Hin|].
  split; [|split; [|split]].
  - intros toks Htoks Hs. rewrite Hin, split_ws_join by exact Htoks.
    split; intros Hlen; [lia | split; [exact Hs | lia]].
  - exists (re_split (in_class SENTENCE_ENDINGS) text).
    split; [apply re_split_cut | exact Hlong].
  - intros pieces long Hcut Hl.
    rewrite (cut_at_unique _ _ _ _ Hcut (re_split_cut _ text)) in Hl.
    exact (long_of_unique _ _ _ Hl Hlong).
  - apply Forall_forall. intros s Hs.
    apply list_elem_of_In, Hin in Hs as [Hs _]. now apply sentence_in.
Qed.

Lemma long_sentences_more_than_thirty_tokens_witness :
  exists m, analyze_text ascii_alnum text_padded = Ok m /\
            long_sentences m = [sentence_of 31] /\
            In (sentence_of 31) (long_sentences m).
Proof.
  destruct (long_sentences_more_than_thirty_tokens ascii_alnum text_padded)
    as (m & E & Efilter & _ & _ & H & _).
  exists m. split; [exact E|]. split; [rewrite Efilter; reflexivity|].
  apply (H (List.repeat [119%N] 31)).
  - apply sentence_of_tokens.
  - left. reflexivity.
  - reflexivity.
Defined.

(** ** Repeated spaces *)

(** C6: for every text, [repeated_spaces] lists, from the left and
    verbatim, the maximal runs of two or more white space code points of
    the text as given, each run once; for "a  b   c" these are the run
    of two spaces and the run of three. *)
Theorem repeated_spaces_are_the_maximal_runs isalnum text :
  (exists m, analyze_text isalnum text = Ok m /\
     exists occs : list (str * str * str),
       repeated_spaces m = List.map (fun o => o.1.2) occs /\
       (forall pre run post,
           In (pre, run, post) occs <->
           maximal_run isspace text pre run post /\ 2 <= length run) /\
       StronglySorted (fun a b => length a.1.1 < length b.1.1) occs)
  /\ (exists m, analyze_text isalnum text_spaces = Ok m /\
                repeated_spaces m = [lit "  "; lit "   "]).
Proof.
  split.
  - eexists. split; [apply analyze_text_Ok|]. cbn [repeated_spaces].
    apply runs_reported. lia.
  - eexists. split; [apply analyze_text_Ok | reflexivity].
Qed.

(** ** Typography alerts *)

(** C7: for every text, each of the four checks whose substring occurs
    in the text puts its message into [typography_alerts] exactly once,
    however often the substring occurs, a check whose substring does not
    occur puts nothing, and the messages stand in the order of the
    checks; "word , next" gets the comma message once and nothing
    else, and so does a text with two such commas. *)
Theorem one_alert_per_matching_check isalnum text :
  (exists m, analyze_text isalnum text = Ok m /\
     typography_alerts m
     = List.concat
         (List.map (fun check =>
                      if contains (fst check) text then [snd check] else [])
            CHECKS) /\
     forall sub alert, In (sub, alert) CHECKS ->
       (occurs_in sub text -> occurrences alert (typography_alerts m) = 1) /\
       (~ occurs_in sub text -> occurrences alert (typography_alerts m) = 0))
  /\ (exists m, analyze_text isalnum text_comma = Ok m /\
                typography_alerts m = [ALERT_COMMA])
  /\ (exists m, analyze_text isalnum text_commas = Ok m /\
                typography_alerts m = [ALERT_COMMA]).
Proof.
  split; [|split].
  - eexists. split; [apply analyze_text_Ok|]. cbn [typography_alerts].
    split; [reflexivity|]. intros sub alert Hin.
    rewrite (alerts_of_occurrences text sub alert Hin).
    split; intros H.
    + apply contains_true in H. now rewrite H.
    + apply contains_false in H. now rewrite H.
  - eexists. split; [apply analyze_text_Ok | reflexivity].
  - eexists. split; [apply analyze_text_Ok | reflexivity].
Qed.

Lemma one_alert_per_matching_check_witness :
  exists m, analyze_text ascii_alnum text_commas = Ok m /\
            occurrences ALERT_COMMA (typography_alerts m) = 1.
Proof.
  destruct (one_alert_per_matching_check ascii_alnum text_commas)
    as ((m & E & _ & H) & _).
  exists m. split; [exact E|].
  apply (H [32; 44]%N ALERT_COMMA).
  - left. reflexivity.
  - exists (lit "one"), (lit " two , three"). reflexivity.
Defined.

(** C10: for every text, [typography_alerts] is a sublist of the list
    of the four messages, in their order and without a repetition, so it
    has at most four entries and each is one of the four messages. *)
Theorem typography_alerts_within_the_four isalnum text :
  exists m, analyze_text isalnum text = Ok m /\
    sublist (typography_alerts m) ALERTS /\
    NoDup (typography_alerts m) /\
    length (typography_alerts m) <= 4 /\
    (forall alert, In alert (typography_alerts m) ->
       alert = ALERT_COMMA \/ alert = ALERT_SEMICOLON \/
       alert = ALERT_EXCLAMATION \/ alert = ALERT_QUESTION).
Proof.
  eexists. split; [apply analyze_text_Ok|]. cbn [typography_alerts].
  pose proof (alerts_of_sublist text) as Hsub.
  split; [exact Hsub|]. split; [exact (sublist_NoDup _ _ ALERTS_NoDup Hsub)|].
  split; [exact (sublist_length _ _ Hsub)|].
  intros alert Hin. apply list_elem_of_In in Hin.
  apply (sublist_subseteq _ _ Hsub), list_elem_of_In in Hin.
  simpl in Hin. intuition congruence.
Qed.

Lemma typography_alerts_within_the_four_witness :
  exists m, analyze_text ascii_alnum text_comma = Ok m /\
            (ALERT_COMMA = ALERT_COMMA \/ ALERT_COMMA = ALERT_SEMICOLON \/
             ALERT_COMMA = ALERT_EXCLAMATION \/ ALERT_COMMA = ALERT_QUESTION).
Proof.
  destruct (typography_alerts_within_the_four ascii_alnum text_comma)
    as (m & E & _ & _ & _ & H).
  exists m. split; [exact E|]. apply H.
  rewrite analyze_text_Ok in E. injection E as <-. left. reflexivity.
Defined.

(** ** The report *)

Lemma in_by_eqb (x : str) (l : list str) :
  existsb (Str.eqb x) l = true -> In x l.
Proof.
  intros H. apply existsb_exists in H as (y & Hy & E).
  apply eqb_eq in E. now subst y.
Qed.

(** C9, as the code has it: an item is copied into the report as it
    is, so the report of metrics without long sentences has the line of
    the header of the long sentences when an alert brings it along
    after a line feed. *)
Lemma forged_alert_brings_the_long_header :
  long_sentences forged_metrics = []
  /\ occurs_in (10%N :: LONG_HEADER) (format_metrics no_repr forged_metrics)
  /\ exists lines,
       format_metrics no_repr forged_metrics = join [10%N] lines
       /\ Forall no_line_feed lines
       /\ In LONG_TEXT lines.
Proof.
  split; [reflexivity|]. split.
  - apply contains_true. vm_compute. reflexivity.
  - exists (split [10%N] (format_metrics no_repr forged_metrics)).
    split; [vm_compute; reflexivity|]. split.
    + apply no_line_feed_all. vm_compute. reflexivity.
    + apply in_by_eqb. vm_compute. reflexivity.
Qed.

(** C9, amended: for metrics whose long sentences and alerts have no
    line feed (and numbers printed without one), the report is a list
    of lines joined by line feeds, and that list is the only one.  It
    has the header of the long sentences only when [long_sentences] is
    not empty, and then once, after the seven lines of the summary and
    followed by one line for each long sentence, a hyphen, a space and
    the sentence, and an empty line; it has the header of the
    typography alerts exactly when [typography_alerts] is not empty,
    followed by one such line for each alert, which end the report; and
    it has the line that flags repeated spaces exactly when
    [repeated_spaces] is not empty. *)
Theorem report_sections_only_when_not_empty float_repr metrics :
  (forall f, no_line_feed (float_repr f)) ->
  Forall no_line_feed (long_sentences metrics) ->
  Forall no_line_feed (typography_alerts metrics) ->
  exists lines,
    format_metrics float_repr metrics = join [10%N] lines /\
    Forall no_line_feed lines /\
    (forall lines',
        lines' <> [] -> Forall no_line_feed lines' ->
        format_metrics float_repr metrics = join [10%N] lines' ->
        lines' = lines) /\
    (long_sentences metrics = [] -> ~ In LONG_TEXT lines) /\
    (long_sentences metrics <> [] ->
     exists before after,
       lines = before
                 ++ LONG_TEXT :: List.map bullet_text (long_sentences metrics)
                 ++ [] :: after /\
       length before = 7 /\
       ~ In LONG_TEXT before /\
       ~ In LONG_TEXT (List.map bullet_text (long_sentences metrics)) /\
       ~ In LONG_TEXT after) /\
    (In ALERTS_TEXT lines <-> typography_alerts metrics <> []) /\
    (typography_alerts metrics <> [] ->
     exists before,
       lines = before
                 ++ ALERTS_TEXT
                 :: List.map bullet_text (typography_alerts metrics) ++ [[]] /\
       ~ In ALERTS_TEXT before) /\
    (In FLAG_TEXT lines <-> repeated_spaces metrics <> []).
Proof.
  intros Hrepr Hlong_lf Halerts_lf.
  destruct texts_not_plain as (Hlong & Hflag & Halerts).
  pose proof (report_texts_one_line float_repr metrics Hrepr Hlong_lf
                Halerts_lf) as Hone.
  exists (report_texts float_repr metrics).
  split; [apply format_metrics_texts|]. split; [exact Hone|].
  split; [|split; [|split; [|split; [|split]]]].
  - intros lines' Hne Hone' E. rewrite format_metrics_texts in E.
    symmetry. apply lines_unique; try assumption.
    unfold report_texts, summary_texts. discriminate.
  - intros Hempty Hin. apply in_report_texts in Hin; [|exact Hlong].
    destruct Hin as [[_ H] | [[H _] | [H _]]];
      [congruence | discriminate H | discriminate H].
  - intros Hne.
    exists (summary_texts float_repr metrics),
      (flag_texts metrics ++ alerts_texts metrics ++ [[]]).
    split; [|split; [|split; [|split]]].
    + unfold report_texts, long_texts.
      destruct (long_sentences metrics); [congruence|].
      cbn [app]. now rewrite <- ?app_assoc.
    + reflexivity.
    + apply (not_plain_not_in _ _ Hlong (summary_texts_plain float_repr metrics)).
    + apply (not_plain_not_in _ _ Hlong (bullet_texts_plain _)).
    + rewrite !in_app_iff. intros [Hin | [Hin | [Hin | []]]].
      * apply in_flag_texts in Hin. discriminate Hin.
      * apply in_alerts_texts in Hin as [Hin | Hin]; [discriminate Hin|].
        exact (not_plain_not_in _ _ Hlong (bullet_texts_plain _) Hin).
      * discriminate Hin.
  - rewrite in_report_texts by exact Halerts.
    split; [intros [[H _] | [[H _] | [_ H]]] | intros H; auto];
      [discriminate H | discriminate H | exact H].
  - intros Hne.
    exists (summary_texts float_repr metrics ++ long_texts metrics
              ++ flag_texts metrics).
    split.
    + unfold report_texts, alerts_texts.
      destruct (typography_alerts metrics); [congruence|].
      cbn [app]. now rewrite <- ?app_assoc.
    + rewrite !in_app_iff. intros [Hin | [Hin | Hin]].
      * exact (not_plain_not_in _ _ Halerts
                 (summary_texts_plain float_repr metrics) Hin).
      * apply in_long_texts in Hin as [Hin | [Hin | Hin]];
          [discriminate Hin | | discriminate Hin].
        exact (not_plain_not_in _ _ Halerts (bullet_texts_plain _) Hin).
      * apply in_flag_texts in Hin. discriminate Hin.
  - rewrite in_report_texts by exact Hflag.
    split; [intros [[H _] | [[_ H] | [H _]]] | intros H; auto];
      [discriminate H | exact H | discriminate H].
Qed.

Lemma report_sections_only_when_not_empty_witness :
  exists lines,
    format_metrics no_repr sample_metrics = join [10%N] lines /\
    In LONG_TEXT lines /\ In ALERTS_TEXT lines /\ In FLAG_TEXT lines /\
    In (bullet_text (sentence_of 31)) lines /\
    In (bullet_text ALERT_COMMA) lines.
Proof.
  destruct (report_sections_only_when_not_empty no_repr sample_metrics)
    as (lines & E & _ & _ & _ & Hlong & Halerts & Hitems & Hflag).
  - intros f [].
  - apply no_line_feed_all. vm_compute. reflexivity.
  - apply no_line_feed_all. vm_compute. reflexivity.
  - exists lines. split; [exact E|].
    destruct Hlong as (before & after & El & _); [discriminate|].
    destruct Hitems as (before' & El' & _); [discriminate|].
    split; [|split; [|split; [|split]]].
    + rewrite El, in_app_iff. right. left. reflexivity.
    + apply Halerts. discriminate.
    + apply Hflag. discriminate.
    + rewrite El, in_app_iff. right. right. left. reflexivity.
    + rewrite El', in_app_iff. right. right. left. reflexivity.
Defined.
(** * Further properties of the code *)

(** ** More on the analysis *)

(** X1: the word count of [analyze_text] is the number of maximal runs
    of word characters of the text. *)
Theorem word_count_counts_maximal_runs isalnum text :
  exists m, analyze_text isalnum text = Ok m /\
    exists occs : list (str * str * str),
      words m = len occs /\
      (forall pre run post,
          In (pre, run, post) occs <->
          maximal_run (isword isalnum) text pre run post) /\
      StronglySorted (fun a b => length a.1.1 < length b.1.1) occs.
Proof.
  eexists. split; [apply analyze_text_Ok|]. cbn [words].
  destruct (runs_reported (isword isalnum) 1 ltac:(lia) text)
    as (occs & E & Hiff & Hsort).
  exists occs. split; [|split; [|exact Hsort]].
  - unfold word_list, len. now rewrite E, length_map.
  - intros pre run post. rewrite Hiff. split; [tauto|].
    intros H. split; [exact H|]. destruct H as [_ Hne _ _ _].
    destruct run; [congruence | simpl; lia].
Qed.

(** X2: the paragraph count of [analyze_text] is the number of pieces
    that are not blank when the text is cut at its blank lines: the
    pieces joined by two line feeds give the text, and no piece holds
    two line feeds in a row. *)
Theorem paragraph_count_counts_blocks isalnum text :
  exists m pieces,
    analyze_text isalnum text = Ok m /\
    join [10; 10]%N pieces = text /\
    Forall (fun p => ~ occurs_in [10; 10]%N p) pieces /\
    paragraphs m
    = len (List.filter (fun p => negb (forallb isspace p)) pieces).
Proof.
  eexists. exists (split [10; 10]%N text).
  split; [apply analyze_text_Ok|]. cbn [paragraphs].
  split; [apply split_join, newlines_not_empty|].
  split; [apply split_no_sep, newlines_not_empty|].
  unfold paragraph_list, len. rewrite length_map. do 2 f_equal.
  apply List.filter_ext. intros p. apply truthy_strip.
Qed.

(** X3: every long sentence that [analyze_text] reports is a trimmed
    part of the text with none of the sentence endings in it. *)
Theorem long_sentences_are_trimmed_parts isalnum text :
  exists m, analyze_text isalnum text = Ok m /\
    forall s, In s (long_sentences m) ->
      trimmed s
      /\ Forall (fun c => in_class SENTENCE_ENDINGS c = false) s
      /\ occurs_in s text.
Proof.
  eexists. split; [apply analyze_text_Ok|]. cbn [long_sentences].
  intros s Hin. apply List.filter_In in Hin as [Hin _].
  now apply sentence_in.
Qed.

Lemma long_sentences_are_trimmed_parts_witness :
  exists m, analyze_text ascii_alnum (sentence_of 31 ++ [46%N]) = Ok m /\
            trimmed (sentence_of 31).
Proof.
  destruct (long_sentences_are_trimmed_parts ascii_alnum
              (sentence_of 31 ++ [46%N])) as (m & E & H).
  exists m. split; [exact E|]. apply H.
  rewrite analyze_text_Ok in E. injection E as <-. left. reflexivity.
Defined.

(** X4: a count of [analyze_text] is zero exactly when the text has
    nothing to count: no paragraph when every code point is white space,
    no sentence when every code point is white space or a sentence
    ending, no word when no code point is a word character; and an
    average is the integer 0, not a float, exactly when its count is
    zero. *)
Theorem zero_counts isalnum text :
  exists m, analyze_text isalnum text = Ok m /\
    (paragraphs m = 0%Z <-> Forall (fun c => isspace c = true) text) /\
    (sentences m = 0%Z <->
     Forall (fun c => isspace c = true \/ in_class SENTENCE_ENDINGS c = true)
       text) /\
    (words m = 0%Z <-> Forall (fun c => isword isalnum c = false) text) /\
    (average_sentence_length m = PyInt 0 <-> sentences m = 0%Z) /\
    (average_paragraph_length m = PyInt 0 <-> paragraphs m = 0%Z).
Proof.
  eexists. split; [apply analyze_text_Ok|].
  cbn [words sentences paragraphs average_sentence_length
         average_paragraph_length].
  rewrite !len_zero, !average_is_zero, !len_zero.
  split; [apply paragraph_list_nil|]. split; [apply sentence_list_nil|].
  split; [apply word_list_nil|]. tauto.
Qed.

(** X5: no count of [analyze_text] is greater than the number of code
    points of the text, and there are no more long sentences than
    sentences. *)
Theorem counts_bounded_by_length isalnum text :
  exists m, analyze_text isalnum text = Ok m /\
    (0 <= words m <= len text)%Z /\
    (0 <= sentences m <= len text)%Z /\
    (0 <= paragraphs m <= len text)%Z /\
    (len (long_sentences m) <= sentences m)%Z.
Proof.
  eexists. split; [apply analyze_text_Ok|].
  cbn [words sentences paragraphs long_sentences]. unfold len.
  pose proof (word_list_length isalnum text).
  pose proof (sentence_list_length text).
  pose proof (paragraph_list_length text).
  pose proof (sublist_length _ _
                (filter_sublist (fun s => (30 <? Z.of_nat (length (split_ws s)))%Z)
                   (sentence_list text))).
  repeat split; lia.
Qed.

(** X6: a text without any of the sentence endings is one sentence, or
    none if it is blank; so question marks of ASCII alone never separate
    sentences. *)
Theorem text_without_endings_is_one_sentence isalnum text :
  Forall (fun c => in_class SENTENCE_ENDINGS c = false) text ->
  exists m, analyze_text isalnum text = Ok m /\
    sentences m = (if forallb isspace text then 0 else 1)%Z /\
    long_sentences m
    = (if (30 <? len (split_ws (strip text)))%Z then [strip text] else []).
Proof.
  intros Hfree. eexists. split; [apply analyze_text_Ok|].
  cbn [sentences long_sentences].
  assert (E : sentence_list text
              = if forallb isspace text then [] else [strip text]).
  { unfold sentence_list, re_split. cbv zeta.
    rewrite (re_split_aux_free _ _ Hfree). simpl rev. simpl app.
    cbn [List.filter]. rewrite truthy_strip.
    now destruct (forallb isspace text). }
  rewrite E. destruct (forallb isspace text) eqn:Hb.
  - split; [reflexivity|].
    assert (Es : strip text = []).
    { apply strip_blank, Forall_forall. intros c Hc.
      apply (proj1 (List.forallb_forall isspace text) Hb), list_elem_of_In, Hc. }
    rewrite Es. reflexivity.
  - split; [reflexivity|]. cbn [List.filter].
    now destruct (30 <? len (split_ws (strip text)))%Z.
Qed.

Lemma text_without_endings_is_one_sentence_witness :
  exists m, analyze_text ascii_alnum text_questions = Ok m /\
            sentences m = 1%Z.
Proof.
  destruct (text_without_endings_is_one_sentence ascii_alnum text_questions)
    as (m & E & Hs & _).
  - repeat constructor.
  - exists m. split; [exact E | exact Hs].
Defined.

(** X7: for a text of fewer than [2^45] code points, each average of
    [analyze_text] with a count that is not zero is the float nearest
    to a decimal [h / 100] that lies within half a hundredth of the
    exact quotient of the counts. *)
Theorem averages_exact_for_texts isalnum text :
  (len text < 2 ^ 45)%Z ->
  exists m, analyze_text isalnum text = Ok m /\
    (sentences m <> 0%Z ->
     exists h, average_sentence_length m = PyFloat (hundredths_float h) /\
               (Qabs (inject_Z (words m) / inject_Z (sentences m)
                      - inject_Z h / inject_Z 100) <= 1 # 200)%Q) /\
    (paragraphs m <> 0%Z ->
     exists h, average_paragraph_length m = PyFloat (hundredths_float h) /\
               (Qabs (inject_Z (words m) / inject_Z (paragraphs m)
                      - inject_Z h / inject_Z 100) <= 1 # 200)%Q).
Proof.
  intros Hlen. eexists. split; [apply analyze_text_Ok|].
  cbn [words sentences paragraphs average_sentence_length
         average_paragraph_length].
  pose proof (word_list_length isalnum text).
  pose proof (sentence_list_length text).
  pose proof (paragraph_list_length text).
  unfold len in *. split; intros Hne; apply average_exact; lia.
Qed.

Lemma averages_exact_for_texts_witness :
  exists m, analyze_text ascii_alnum text_ten_in_three = Ok m /\
    exists h, average_sentence_length m = PyFloat (hundredths_float h) /\
              (Qabs (inject_Z (words m) / inject_Z (sentences m)
                     - inject_Z h / inject_Z 100) <= 1 # 200)%Q.
Proof.
  destruct (averages_exact_for_texts ascii_alnum text_ten_in_three)
    as (m & E & H & _).
  - vm_compute. reflexivity.
  - exists m. split; [exact E|]. apply H.
    rewrite analyze_text_Ok in E. injection E as <-. discriminate.
Defined.

(** X8: the report of an analysis shows a section exactly when the
    text has what the section is about.  When no long sentence of the
    text has a line feed (and numbers are printed without one), the
    report is a list of lines joined by line feeds, and among these
    lines is the line on repeated spaces exactly when two white space
    code points stand side by side, the header of the typography alerts
    exactly when one of the four substrings occurs, and the header of
    the long sentences exactly when a sentence has more than 30
    tokens. *)
Theorem report_shows_what_the_text_has isalnum float_repr text :
  (forall f, no_line_feed (float_repr f)) ->
  exists m, analyze_text isalnum text = Ok m /\
    (Forall no_line_feed (long_sentences m) ->
     exists lines,
       format_metrics float_repr m = join [10%N] lines /\
       Forall no_line_feed lines /\
       (In FLAG_TEXT lines <->
        exists pre a b post,
          text = pre ++ a :: b :: post /\ isspace a = true /\ isspace b = true) /\
       (In ALERTS_TEXT lines <->
        exists sub alert, In (sub, alert) CHECKS /\ occurs_in sub text) /\
       (In LONG_TEXT lines <->
        exists s, In s (sentence_list text) /\ 30 < length (split_ws s))).
Proof.
  intros Hrepr.
  destruct texts_not_plain as (Hlong & Hflag & Halerts).
  eexists. split; [apply analyze_text_Ok|].
  cbn [long_sentences]. intros Hlf.
  eexists. split; [apply format_metrics_texts|]. split.
  { apply report_texts_one_line; [exact Hrepr | exact Hlf |].
    apply alerts_of_one_line. }
  rewrite !in_report_texts by assumption.
  cbn [long_sentences repeated_spaces typography_alerts].
  rewrite <- runs_two_not_nil, <- alerts_of_not_nil.
  split; [|split].
  - split; [intros [[H _] | [[_ H] | [H _]]] | intros H; auto];
      [discriminate H | exact H | discriminate H].
  - split; [intros [[H _] | [[H _] | [_ H]]] | intros H; auto];
      [discriminate H | discriminate H | exact H].
  - rewrite filter_not_nil. split.
    + intros [[_ (s & Hs & Hl)] | [[H _] | [H _]]];
        [| discriminate H | discriminate H].
      exists s. split; [exact Hs|]. apply Z.ltb_lt in Hl. unfold len in Hl. lia.
    + intros (s & Hs & Hl). left. split; [reflexivity|]. exists s.
      split; [exact Hs|]. apply Z.ltb_lt. unfold len. lia.
Qed.

Lemma report_shows_what_the_text_has_witness :
  exists m lines,
    analyze_text ascii_alnum text_all_parts = Ok m /\
    format_metrics no_repr m = join [10%N] lines /\
    In FLAG_TEXT lines /\ In ALERTS_TEXT lines /\ In LONG_TEXT lines.
Proof.
  destruct (report_shows_what_the_text_has ascii_alnum no_repr text_all_parts)
    as (m & E & H); [intros f []|].
  destruct H as (lines & El & _ & Hflag & Halerts & Hlong).
  { rewrite analyze_text_Ok in E. injection E as <-.
    apply no_line_feed_all. vm_compute. reflexivity. }
  exists m, lines. split; [exact E|]. split; [exact El|].
  split; [|split].
  - apply Hflag. exists (sentence_of 31 ++ [32; 44]%N), 32%N, 32%N, [120; 46]%N.
    split; [|split]; reflexivity.
  - apply Halerts. exists [32; 44]%N, ALERT_COMMA. split; [now left|].
    exists (sentence_of 31), [32; 32; 120; 46]%N. reflexivity.
  - apply Hlong. exists (sentence_of 31 ++ [32; 44; 32; 32; 120]%N).
    split; [left; reflexivity | vm_compute; lia].
Defined.

Lemma ascii_alnum_table c :
  isspace c = true \/ in_class SENTENCE_ENDINGS c = true ->
  ascii_alnum c = false.
Proof.
  rewrite sentence_ending_members. unfold isspace, ascii_alnum.
  rewrite !orb_true_iff, !andb_true_iff, !N.eqb_eq, !N.leb_le.
  intros H.
  destruct (N.leb_spec 48 c), (N.leb_spec c 57), (N.leb_spec 65 c),
    (N.leb_spec c 90), (N.leb_spec 97 c), (N.leb_spec c 122);
    simpl; try reflexivity; lia.
Qed.

(** X9: a text with a sentence has a paragraph; and when no white space
    and no sentence ending is alphanumeric, as in Unicode, a text with a
    word has a sentence, so that both averages are floats. *)
Theorem words_need_sentences_and_paragraphs isalnum text :
  exists m, analyze_text isalnum text = Ok m /\
    ((0 < sentences m)%Z -> (0 < paragraphs m)%Z) /\
    ((forall c, isspace c = true \/ in_class SENTENCE_ENDINGS c = true ->
                isalnum c = false) ->
     (0 < words m)%Z ->
     (0 < sentences m)%Z /\ (0 < paragraphs m)%Z
     /\ (exists f, average_sentence_length m = PyFloat f)
     /\ (exists f, average_paragraph_length m = PyFloat f)).
Proof.
  eexists. split; [apply analyze_text_Ok|].
  cbn [words sentences paragraphs average_sentence_length
         average_paragraph_length].
  assert (Hsp : (0 < len (sentence_list text))%Z ->
                (0 < len (paragraph_list text))%Z).
  { intros Hs.
    destruct (paragraph_list text) as [|p ps] eqn:Ep;
      [exfalso | unfold len; simpl; lia].
    apply paragraph_list_nil in Ep.
    assert (Es : sentence_list text = []).
    { apply sentence_list_nil. eapply Forall_impl; [exact Ep|].
      intros c Hc. now left. }
    rewrite Es in Hs. unfold len in Hs. simpl in Hs. lia. }
  split; [exact Hsp|]. intros Htable Hw.
  assert (Hs : (0 < len (sentence_list text))%Z).
  { destruct (sentence_list text) as [|x xs] eqn:Es;
      [exfalso | unfold len; simpl; lia].
    apply sentence_list_nil in Es.
    assert (Ew : word_list isalnum text = []).
    { apply word_list_nil. eapply Forall_impl; [exact Es|].
      intros c Hc. simpl in Hc. unfold isword. rewrite (Htable c Hc). simpl.
      apply N.eqb_neq. intros ->. destruct Hc as [Hc|Hc]; discriminate Hc. }
    rewrite Ew in Hw. unfold len in Hw. simpl in Hw. lia. }
  pose proof (Hsp Hs) as Hp.
  split; [exact Hs|]. split; [exact Hp|].
  unfold average.
  replace (len (sentence_list text) =? 0)%Z with false
    by (symmetry; apply Z.eqb_neq; lia).
  replace (len (paragraph_list text) =? 0)%Z with false
    by (symmetry; apply Z.eqb_neq; lia).
  split; apply round_float_is_float.
Qed.

Lemma words_need_sentences_and_paragraphs_witness :
  exists m, analyze_text ascii_alnum text_comma = Ok m /\
            (0 < sentences m)%Z /\ (0 < paragraphs m)%Z.
Proof.
  destruct (words_need_sentences_and_paragraphs ascii_alnum text_comma)
    as (m & E & _ & H).
  exists m. split; [exact E|].
  destruct H as (Hs & Hp & _).
  - exact ascii_alnum_table.
  - rewrite analyze_text_Ok in E. injection E as <-. reflexivity.
  - split; assumption.
Defined.

(** ** Decimals *)

Lemma digits_value_acc d :
  forall acc : positive,
    digits_value (Z.pos acc) (lit (NilEmpty.string_of_uint d))
    = Some (Z.pos (Pos.of_uint_acc d acc)).
Proof.
  induction d; intros acc; cbn -[Z.mul Z.add Pos.mul Pos.add];
    try reflexivity; rewrite <- IHd; f_equal; lia.
Qed.

Lemma digits_value_uint d :
  digits_value 0 (lit (NilEmpty.string_of_uint d))
  = Some (Z.of_N (Pos.of_uint d)).
Proof.
  induction d; cbn -[Z.mul Z.add Pos.of_uint_acc];
    try reflexivity; try exact IHd; apply digits_value_acc.
Qed.

(** The decimal of a natural number reads back as the number. *)
Lemma digits_value_of_int z :
  (0 <= z)%Z -> digits_value 0 (of_int z) = Some z.
Proof.
  intros Hz. unfold of_int.
  rewrite <- (DecimalZ.of_to z) at 2.
  destruct z as [|p|p]; [reflexivity | | lia].
  cbn [Z.to_int NilZero.string_of_int Z.of_int Z.of_uint].
  unfold NilZero.string_of_uint.
  destruct (Pos.to_uint p) eqn:E; try apply digits_value_uint.
  reflexivity.
Qed.

Lemma digits_value_digits s :
  forall acc v,
    digits_value acc s = Some v ->
    Forall (fun c => (c =? 45)%N = false) s.
Proof.
  induction s as [|c s IH]; intros acc v H; [constructor|].
  simpl in H. destruct ((48 <=? c) && (c <=? 57))%N eqn:Hc; [|discriminate H].
  constructor; [|exact (IH _ _ H)].
  apply andb_true_iff in Hc as [H1 H2]. apply N.leb_le in H1.
  apply N.eqb_neq. lia.
Qed.

Lemma digits_value_format z :
  (0 <= z)%Z -> digits_value 0 (format_02d z) = Some z.
Proof.
  intros Hz. unfold format_02d. cbv zeta.
  destruct (length (of_int z) <? 2)%nat; [|now apply digits_value_of_int].
  cbn [digits_value]. change ((48 <=? 48) && (48 <=? 57))%N with true.
  cbv iota. now apply digits_value_of_int.
Qed.

Lemma before_hyphen_app ds rest :
  Forall (fun c => (c =? 45)%N = false) ds ->
  before_hyphen (ds ++ 45%N :: rest) = ds.
Proof.
  induction 1 as [|c ds Hc _ IH]; simpl; [reflexivity|].
  now rewrite Hc, IH.
Qed.

(** A name that starts with [f"{z:02d}-"] has the leading number [z]. *)
Lemma leading_number_format z rest :
  (0 <= z)%Z -> leading_number (format_02d z ++ 45%N :: rest) = Some z.
Proof.
  intros Hz. unfold leading_number.
  rewrite before_hyphen_app; [now apply digits_value_format|].
  exact (digits_value_digits _ _ _ (digits_value_format z Hz)).
Qed.

Lemma of_int_injective a b :
  (0 <= a)%Z -> (0 <= b)%Z -> of_int a = of_int b -> a = b.
Proof.
  intros Ha Hb E. apply digits_value_of_int in Ha, Hb.
  rewrite E in Ha. congruence.
Qed.

(** ** Lists *)

Lemma fold_left_snoc {A B} (f : A -> B) (l : list A) (init : list B) :
  fold_left (fun acc x => acc ++ [f x]) l init = init ++ List.map f l.
Proof.
  revert init. induction l as [|x l IH]; intros init; simpl.
  - now rewrite app_nil_r.
  - rewrite IH. now rewrite <- app_assoc.
Qed.

Lemma lookup_map {A B} (f : A -> B) (l : list A) i :
  List.map f l !! i = f <$> l !! i.
Proof.
  revert i. induction l as [|x l IH]; intros [|i]; simpl; auto.
Qed.

Lemma lookup_seq_0 n i : i < n -> seq 0 n !! i = Some i.
Proof.
  intros Hi. rewrite lookup_seq. split; [reflexivity | exact Hi].
Qed.

(** ** Slugs and chapters *)


Lemma numbered_NoDup project :
  numbered project ->
  NoDup (List.map Chapter.filename (BookProject.chapters project)).
Proof.
  intros Hnum. apply NoDup_alt. intros i j name Hi Hj.
  rewrite lookup_map in Hi, Hj.
  destruct (BookProject.chapters project !! i) as [ci|] eqn:Ei;
    [|discriminate Hi].
  destruct (BookProject.chapters project !! j) as [cj|] eqn:Ej;
    [|discriminate Hj].
  simpl in Hi, Hj. injection Hi as Hi. injection Hj as Hj.
  pose proof (Hnum i ci Ei) as Hni. pose proof (Hnum j cj Ej) as Hnj.
  rewrite Hi in Hni. rewrite Hj in Hnj. rewrite Hni in Hnj.
  injection Hnj as Hnj. lia.
Qed.

Lemma of_int_not_nil z : (0 <= z)%Z -> of_int z <> [].
Proof.
  intros Hz E. destruct (Z.eq_dec z 0%Z) as [-> | Hne]; [discriminate E|].
  apply digits_value_of_int in Hz. rewrite E in Hz. simpl in Hz.
  injection Hz as Hz. lia.
Qed.

Lemma format_02d_length z : (0 <= z)%Z -> 2 <= length (format_02d z).
Proof.
  intros Hz. unfold format_02d. cbv zeta.
  destruct (length (of_int z) <? 2)%nat eqn:E.
  - pose proof (of_int_not_nil z Hz). destruct (of_int z); [congruence|].
    simpl. lia.
  - apply Nat.ltb_ge in E. exact E.
Qed.

(** X10: [add_chapter] keeps the chapters of a project numbered,
    whatever the file system does.  On a project whose chapters carry
    their positions at the start of their file names, it appends one
    chapter to the list of the project, also when the call raises; the
    file name of the chapter is its position in two digits or more, a
    hyphen, the slug of the title and ".md"; it differs from the name of
    every earlier chapter, the chapters stay numbered and their file
    names distinct.  The call returns, and then the new chapter, exactly
    when saving the project with the new chapter in it and then writing
    the template under that name in the directory of the chapters both
    succeed; otherwise it raises. *)
Theorem add_chapter_keeps_numbering lower (world error : Type)
  mkdir dump write_text self title summary goals (w : world) :
  numbered self ->
  exists chapter digits self' (out : outcome error Chapter.t) w',
    add_chapter lower world error mkdir dump write_text
      self title summary goals w = (self', out, w')
    /\ BookProject.chapters self' = BookProject.chapters self ++ [chapter]
    /\ Chapter.title chapter = title
    /\ Chapter.filename chapter
       = digits ++ [45%N] ++ _slugify lower title ++ [46; 109; 100]%N
    /\ 2 <= length digits
    /\ digits_value 0 digits
       = Some (Z.of_nat (length (BookProject.chapters self')))
    /\ ~ In (Chapter.filename chapter)
           (List.map Chapter.filename (BookProject.chapters self))
    /\ numbered self'
    /\ NoDup (List.map Chapter.filename (BookProject.chapters self'))
    /\ (out = Returns chapter <->
        exists w1,
          save world error mkdir dump self' w = (None, w1)
          /\ write_text (BookProject.root self)
               [lit "chapters"; Chapter.filename chapter]
               (_chapter_template chapter) w1 = (None, w'))
    /\ (out = Returns chapter \/ exists e, out = Raises e).
Proof.
  intros Hnum.
  set (n := length (BookProject.chapters self)).
  set (index := (len (BookProject.chapters self) + 1)%Z).
  assert (Hindex : index = Z.of_nat (S n)) by (unfold index, len; lia).
  set (chapter :=
         Chapter.mk title
           (format_02d index ++ [45%N] ++ _slugify lower title
              ++ [46; 109; 100]%N)
           summary
           match goals with
           | Some g => if nonempty g then g else []
           | None => []
           end (lit "not-started")).
  set (self' :=
         BookProject.mk (BookProject.root self) (BookProject.title self)
           (BookProject.author self) (BookProject.genre self)
           (BookProject.tone self) (BookProject.target_length_words self)
           (BookProject.created_at self) (BookProject.synopsis self)
           (BookProject.audience self) (BookProject.language self)
           (BookProject.chapters self ++ [chapter])
           (BookProject.custom_guidelines self)).
  assert (Hlead : leading_number (Chapter.filename chapter)
                  = Some (Z.of_nat (S n))).
  { cbn [chapter Chapter.filename]. cbn [app].
    rewrite leading_number_format by (unfold index, len; lia).
    now rewrite Hindex. }
  assert (Hnum' : numbered self').
  { intros i c. cbn [self' BookProject.chapters]. intros Hi.
    apply lookup_app_Some in Hi as [Hi | [Hge Hi]]; [now apply Hnum|].
    fold n in Hge, Hi. destruct (i - n) as [|k] eqn:Ek; [|discriminate Hi].
    injection Hi as <-. rewrite Hlead. do 2 f_equal. lia. }
  assert (Hrun : exists out w',
             add_chapter lower world error mkdir dump write_text
               self title summary goals w = (self', out, w')
             /\ (out = Returns chapter <->
                 exists w1,
                   save world error mkdir dump self' w = (None, w1)
                   /\ write_text (BookProject.root self)
                        [lit "chapters"; Chapter.filename chapter]
                        (_chapter_template chapter) w1 = (None, w'))
             /\ (out = Returns chapter \/ exists e, out = Raises e)).
  { unfold add_chapter. cbv zeta. fold index. fold chapter. fold self'.
    destruct (save world error mkdir dump self' w) as [[e|] w1] eqn:Es.
    - exists (Raises e), w1. split; [reflexivity|]. split; [|eauto].
      split; [discriminate | intros (w2 & E & _); discriminate E].
    - unfold _write_chapter_template. cbv zeta.
      change (BookProject.root self') with (BookProject.root self).
      destruct (write_text (BookProject.root self)
                  [lit "chapters"; Chapter.filename chapter]
                  (_chapter_template chapter) w1) as [[e|] w2] eqn:Ew.
      + exists (Raises e), w2. split; [reflexivity|]. split; [|eauto].
        split; [discriminate|].
        intros (w3 & E & E'). injection E as <-. rewrite Ew in E'.
        discriminate E'.
      + exists (Returns chapter), w2. split; [reflexivity|].
        split; [|now left]. split; [|reflexivity].
        intros _. exists w1. split; [reflexivity | exact Ew]. }
  destruct Hrun as (out & w' & Erun & Hout & Hcases).
  exists chapter, (format_02d index), self', out, w'.
  split; [exact Erun|]. split; [reflexivity|]. split; [reflexivity|].
  split; [reflexivity|].
  split; [apply format_02d_length; unfold index, len; lia|].
  split.
  { cbn [self' BookProject.chapters]. rewrite length_app. cbn [length].
    fold n. rewrite digits_value_format by (unfold index, len; lia).
    f_equal. lia. }
  split.
  { intros Hin. apply in_map_iff in Hin as (c & Hname & Hc).
    apply list_elem_of_In, list_elem_of_lookup in Hc as [i Hi].
    pose proof (Hnum i c Hi) as Hn. rewrite Hname, Hlead in Hn.
    apply lookup_lt_Some in Hi. fold n in Hi. injection Hn as Hn. lia. }
  split; [exact Hnum'|].
  split; [apply (numbered_NoDup _ Hnum') | split; [exact Hout | exact Hcases]].
Qed.

Lemma sample_book_numbered : numbered sample_book.
Proof.
  intros i c H. destruct i as [|i]; [|destruct i; discriminate H].
  injection H as <-. reflexivity.
Qed.

Lemma add_chapter_keeps_numbering_witness :
  exists chapter self' w',
    add_chapter ascii_lower _ _ sample_mkdir sample_dump sample_write_text
      sample_book (lit "My First") [] None []
    = (self', Returns chapter, w')
    /\ Chapter.filename chapter = lit "02-my-first.md"
    /\ BookProject.chapters self' = BookProject.chapters sample_book ++ [chapter]
    /\ ~ In (Chapter.filename chapter)
           (List.map Chapter.filename (BookProject.chapters sample_book))
    /\ numbered self'.
Proof.
  destruct (add_chapter_keeps_numbering ascii_lower _ unit
              sample_mkdir sample_dump sample_write_text
              sample_book (lit "My First") [] None [] sample_book_numbered)
    as (chapter & digits & self' & out & w' & E & Hc & _ & _ & _ & _
        & Hnew & Hnum & _).
  exists chapter, self', w'.
  assert (Eout : out = Returns chapter /\
                 Chapter.filename chapter = lit "02-my-first.md").
  { vm_compute in E. injection E as <- <- <-.
    cbn in Hc. injection Hc as <-. split; reflexivity. }
  destruct Eout as [-> Ename].
  repeat split; assumption.
Defined.

(** A title with a slash in it: the project is saved, the template is
    not written, the call raises, and the chapter is in the project. *)
Example add_chapter_with_a_slash :
  exists self',
    add_chapter ascii_lower _ _ sample_mkdir sample_dump sample_write_text
      sample_book (lit "a/b") [] None []
    = (self', Raises tt,
       [[lit "book"; lit "book.json"]; [lit "book"; lit "chapters"];
        [lit "book"]])
    /\ List.map Chapter.filename (BookProject.chapters self')
       = [lit "01-intro.md"; lit "02-a/b.md"].
Proof. eexists. split; reflexivity. Qed.




(** ** The outline *)

Lemma range_length a b : length (range a b) = Z.to_nat (b - a).
Proof. unfold range. now rewrite length_map, length_seq. Qed.

Lemma range_lookup a b i :
  i < Z.to_nat (b - a) -> range a b !! i = Some (a + Z.of_nat i)%Z.
Proof.
  intros Hi. unfold range. rewrite lookup_map, lookup_seq_0 by exact Hi.
  reflexivity.
Qed.

Lemma build_outline_Ok project n :
  build_outline project n =
  Ok (List.map
        (fun idx =>
           OutlineItem.mk
             (OUTLINE_TITLE ++ of_int idx)
             (OUTLINE_SUMMARY_1 ++ of_int idx ++ OUTLINE_SUMMARY_2
                ++ (if truthy (BookProject.audience project)
                    then BookProject.audience project
                    else GENERAL_AUDIENCE)
                ++ [46]%N)
             (Z.max (BookProject.target_length_words project / Z.max n 1) 1500))
        (range 1 (n + 1))).
Proof.
  unfold build_outline, floordiv.
  replace (Z.max n 1 =? 0)%Z with false by (symmetry; apply Z.eqb_neq; lia).
  cbn [bind]. now rewrite fold_left_snoc.
Qed.

Lemma total_target_map (f : Z -> OutlineItem.t) (w : Z) (l : list Z) :
  (forall idx, OutlineItem.word_target (f idx) = w) ->
  total_target (List.map f l) = (Z.of_nat (length l) * w)%Z.
Proof.
  intros Hf. induction l as [|x l IH]; [reflexivity|].
  cbn [List.map total_target fold_right length].
  fold (total_target (List.map f l)). rewrite IH, Hf. lia.
Qed.

(** X12: [build_outline] never fails, whatever the number of sections:
    for [n] sections it returns [n] items (none when [n] is zero or
    negative), the item at place [i] has the title of chapter [i], the
    titles are distinct, and every item has the same word target, the
    floor of the target length by the number of sections but at least
    1500. *)
Theorem build_outline_shape project n :
  exists outline,
    build_outline project n = Ok outline
    /\ length outline = Z.to_nat n
    /\ (forall i item,
           outline !! i = Some item ->
           OutlineItem.title item = OUTLINE_TITLE ++ of_int (Z.of_nat (S i))
           /\ OutlineItem.word_target item
              = Z.max (BookProject.target_length_words project / Z.max n 1) 1500
           /\ (1500 <= OutlineItem.word_target item)%Z)
    /\ NoDup (List.map OutlineItem.title outline).
Proof.
  eexists. split; [apply build_outline_Ok|].
  assert (Hlen : Z.to_nat (n + 1 - 1) = Z.to_nat n) by (f_equal; lia).
  split; [now rewrite length_map, range_length|].
  assert (Hitem : forall i item,
             List.map
               (fun idx =>
                  OutlineItem.mk
                    (OUTLINE_TITLE ++ of_int idx)
                    (OUTLINE_SUMMARY_1 ++ of_int idx ++ OUTLINE_SUMMARY_2
                       ++ (if truthy (BookProject.audience project)
                           then BookProject.audience project
                           else GENERAL_AUDIENCE)
                       ++ [46]%N)
                    (Z.max (BookProject.target_length_words project / Z.max n 1)
                       1500))
               (range 1 (n + 1)) !! i = Some item ->
             OutlineItem.title item = OUTLINE_TITLE ++ of_int (Z.of_nat (S i))
             /\ OutlineItem.word_target item
                = Z.max (BookProject.target_length_words project / Z.max n 1)
                    1500).
  { intros i item Hi. rewrite lookup_map in Hi.
    destruct (range 1 (n + 1) !! i) as [idx|] eqn:Ei; [|discriminate Hi].
    pose proof (lookup_lt_Some _ _ _ Ei) as Hlt. rewrite range_length in Hlt.
    rewrite range_lookup in Ei by exact Hlt. injection Ei as <-.
    injection Hi as <-. cbn [OutlineItem.title OutlineItem.word_target].
    split; [|reflexivity].
    replace (Z.of_nat (S i)) with (1 + Z.of_nat i)%Z by lia. reflexivity. }
  split.
  - intros i item Hi. destruct (Hitem i item Hi) as [Ht Hw].
    split; [exact Ht|]. split; [exact Hw|]. rewrite Hw. lia.
  - apply NoDup_alt. intros i j name Hi Hj. rewrite lookup_map in Hi, Hj.
    destruct (_ !! i) as [a|] eqn:Ea in Hi; [|discriminate Hi].
    destruct (_ !! j) as [b|] eqn:Eb in Hj; [|discriminate Hj].
    injection Hi as Hi. injection Hj as Hj.
    destruct (Hitem i a Ea) as [Ha _]. destruct (Hitem j b Eb) as [Hb _].
    rewrite Hi in Ha. rewrite Hj in Hb. rewrite Ha in Hb.
    apply app_inv_head in Hb. apply of_int_injective in Hb; lia.
Qed.

(** X13: for one section or more, the word targets of the outline of
    [build_outline] add up to the target length of the project less
    what the floor division drops, which is less than the number of
    sections, when the target length allows 1500 words to a section;
    otherwise they add up to 1500 words to a section, more than the
    target length. *)
Theorem build_outline_budget project n :
  (1 <= n)%Z ->
  exists outline,
    build_outline project n = Ok outline
    /\ total_target outline
       = (n * Z.max (BookProject.target_length_words project / n) 1500)%Z
    /\ ((1500 * n <= BookProject.target_length_words project)%Z ->
        (BookProject.target_length_words project - n < total_target outline
         <= BookProject.target_length_words project)%Z)
    /\ ((BookProject.target_length_words project < 1500 * n)%Z ->
        total_target outline = (1500 * n)%Z).
Proof.
  intros Hn. eexists. split; [apply build_outline_Ok|].
  rewrite (total_target_map _
             (Z.max (BookProject.target_length_words project / Z.max n 1) 1500))
    by reflexivity.
  rewrite range_length. rewrite (Z.max_l n 1) by lia.
  replace (Z.of_nat (Z.to_nat (n + 1 - 1))) with n by lia.
  set (t := BookProject.target_length_words project).
  pose proof (Z.mul_div_le t n ltac:(lia)) as Hle.
  pose proof (Z.mul_succ_div_gt t n ltac:(lia)) as Hgt.
  split; [reflexivity|]. split; intros Ht.
  - assert (1500 <= t / n)%Z by (apply Z.div_le_lower_bound; lia).
    rewrite Z.max_l by lia. lia.
  - assert (t / n < 1500)%Z by (apply Z.div_lt_upper_bound; lia).
    rewrite Z.max_r by lia. lia.
Qed.

Lemma build_outline_budget_witness :
  exists outline,
    build_outline sample_project 8 = Ok outline
    /\ total_target outline = 60000%Z.
Proof.
  destruct (build_outline_budget sample_project 8) as (o & E & Ht & _);
    [lia|].
  exists o. split; [exact E | exact Ht].
Defined.
